(** * The talks application: data model and model-level operations

    A shallow embedding of [app/models.py]: the four mapped classes
    ([User], [Talk], [Comment], [PendingEmail]), the queries they run
    against the session, and the library calls they rest on.

    Conventions.
    - A nullable column, and a Python attribute that may be [None], is an
      [option]; [None] is Python's [None] and SQL's [NULL].
    - Text is a [string] holding the UTF-8 form of the Python text.
    - A query is evaluated against an explicit database value [DB.t]; an
      operation that commits returns the new database.
    - A call that may raise returns a [result].
    - Third-party functions whose bodies are not part of the application
      (the signer's MAC, the password hasher, markdown and bleach) are
      section variables; what is assumed of them is stated as a
      hypothesis next to the theorem that needs it. *)

From Stdlib Require Import ZArith List Ascii String DecimalString.
From stdpp Require Import base option list strings gmap fin_maps relations.

(* ===================================================================== *)
(** ** Python values shared by the model *)
(* ===================================================================== *)

Module Py.

(** The exceptions the modelled code can raise or catch. *)
Inductive exn : Type :=
  | AttributeError (msg : string)
  | BadSignature (msg : string)
  | SignatureExpired
  | IntegrityError (msg : string).

Inductive result (A : Type) : Type :=
  | Ok (a : A)
  | Raise (e : exn).
Arguments Ok {A} a.
Arguments Raise {A} e.

Definition bind {A B} (r : result A) (k : A -> result B) : result B :=
  match r with
  | Ok a => k a
  | Raise e => Raise e
  end.

(** [try: ... except: handler] with a bare [except]. *)
Definition try_except {A B} (r : result A) (k : A -> B) (handler : B) : B :=
  match r with
  | Ok a => k a
  | Raise _ => handler
  end.

(** Truth value of an optional text: [None] and the empty text are false. *)
Definition truthy_str (o : option string) : bool :=
  match o with
  | Some s => negb (String.eqb s "")
  | None => false
  end.

(** Truth value of an optional integer: [None] and [0] are false. *)
Definition truthy_int (o : option Z) : bool :=
  match o with
  | Some z => negb (z =? 0)%Z
  | None => false
  end.

(** Truth value of an optional boolean. *)
Definition truthy_bool (o : option bool) : bool :=
  match o with
  | Some b => b
  | None => false
  end.

(** [a or b] on optional texts. *)
Definition or_str (a b : option string) : option string :=
  if truthy_str a then a else b.

(** [str(n)] for an integer. *)
Definition str_of_int (n : Z) : string :=
  match n with
  | Z0 => "0"
  | Zpos p => NilEmpty.string_of_uint (Pos.to_uint p)
  | Zneg p => String "-" (NilEmpty.string_of_uint (Pos.to_uint p))
  end.

(** [s.encode('utf-8')]: the bytes of the text. *)
Definition encode_utf8 (s : string) : list Z :=
  map (fun a => Z.of_N (N_of_ascii a)) (list_ascii_of_string s).

End Py.

(* ===================================================================== *)
(** ** hashlib.md5 (RFC 1321) *)
(* ===================================================================== *)

Module hashlib.
Local Open Scope Z_scope.

Definition wrap32 (x : Z) : Z := x mod 2 ^ 32.

Definition add32 (x y : Z) : Z := wrap32 (x + y).

Definition not32 (x : Z) : Z := Z.lxor x 0xffffffff.

Definition rotl32 (x n : Z) : Z :=
  Z.lor (wrap32 (Z.shiftl x n)) (Z.shiftr x (32 - n)).

(** Per-round shift amounts. *)
Definition S_table : list Z :=
  [7; 12; 17; 22; 7; 12; 17; 22; 7; 12; 17; 22; 7; 12; 17; 22;
   5; 9; 14; 20; 5; 9; 14; 20; 5; 9; 14; 20; 5; 9; 14; 20;
   4; 11; 16; 23; 4; 11; 16; 23; 4; 11; 16; 23; 4; 11; 16; 23;
   6; 10; 15; 21; 6; 10; 15; 21; 6; 10; 15; 21; 6; 10; 15; 21].

(** [K_table[i] = floor(2^32 * abs(sin(i + 1)))]. *)
Definition K_table : list Z :=
  [0xd76aa478; 0xe8c7b756; 0x242070db; 0xc1bdceee;
   0xf57c0faf; 0x4787c62a; 0xa8304613; 0xfd469501;
   0x698098d8; 0x8b44f7af; 0xffff5bb1; 0x895cd7be;
   0x6b901122; 0xfd987193; 0xa679438e; 0x49b40821;
   0xf61e2562; 0xc040b340; 0x265e5a51; 0xe9b6c7aa;
   0xd62f105d; 0x02441453; 0xd8a1e681; 0xe7d3fbc8;
   0x21e1cde6; 0xc33707d6; 0xf4d50d87; 0x455a14ed;
   0xa9e3e905; 0xfcefa3f8; 0x676f02d9; 0x8d2a4c8a;
   0xfffa3942; 0x8771f681; 0x6d9d6122; 0xfde5380c;
   0xa4beea44; 0x4bdecfa9; 0xf6bb4b60; 0xbebfbc70;
   0x289b7ec6; 0xeaa127fa; 0xd4ef3085; 0x04881d05;
   0xd9d4d039; 0xe6db99e5; 0x1fa27cf8; 0xc4ac5665;
   0xf4292244; 0x432aff97; 0xab9423a7; 0xfc93a039;
   0x655b59c3; 0x8f0ccc92; 0xffeff47d; 0x85845dd1;
   0x6fa87e4f; 0xfe2ce6e0; 0xa3014314; 0x4e0811a1;
   0xf7537e82; 0xbd3af235; 0x2ad7d2bb; 0xeb86d391].

(** The [n] low bytes of [x], least significant first. *)
Fixpoint bytes_le (n : nat) (x : Z) : list Z :=
  match n with
  | O => []
  | S n' => (x mod 256) :: bytes_le n' (x / 256)
  end.

(** The little-endian integer spelled by a list of bytes. *)
Fixpoint int_le (bs : list Z) : Z :=
  match bs with
  | [] => 0
  | b :: bs' => b + 256 * int_le bs'
  end.

(** Message padding: a single 1 bit, zeros up to 56 mod 64 bytes, then
    the bit length on 64 bits. *)
Definition pad (msg : list Z) : list Z :=
  let len := Z.of_nat (length msg) in
  msg ++ [0x80] ++ repeat 0 (Z.to_nat ((55 - len) mod 64))
      ++ bytes_le 8 ((8 * len) mod 2 ^ 64).

(** The sixteen 32-bit words of the [j]-th 64-byte block. *)
Definition block_words (padded : list Z) (j : nat) : list Z :=
  map (fun w => int_le (firstn 4 (skipn (64 * j + 4 * w) padded))) (seq 0 16).

Definition state : Type := Z * Z * Z * Z.

Definition init_state : state :=
  (0x67452301, 0xefcdab89, 0x98badcfe, 0x10325476).

(** One of the 64 operations of the compression function. *)
Definition step (M : list Z) (st : state) (i : nat) : state :=
  let '(a, b, c, d) := st in
  let iz := Z.of_nat i in
  let '(f, g) :=
    if iz <? 16 then
      (Z.lor (Z.land b c) (Z.land (not32 b) d), iz)
    else if iz <? 32 then
      (Z.lor (Z.land d b) (Z.land (not32 d) c), (5 * iz + 1) mod 16)
    else if iz <? 48 then
      (Z.lxor (Z.lxor b c) d, (3 * iz + 5) mod 16)
    else
      (Z.lxor c (Z.lor b (not32 d)), (7 * iz) mod 16) in
  let f' := add32 (add32 (add32 f a) (nth i K_table 0)) (nth (Z.to_nat g) M 0) in
  (d, add32 b (rotl32 f' (nth i S_table 0)), b, c).

Definition compress (st : state) (M : list Z) : state :=
  let '(a0, b0, c0, d0) := st in
  let '(a, b, c, d) := fold_left (step M) (seq 0 64) st in
  (add32 a0 a, add32 b0 b, add32 c0 c, add32 d0 d).

(** The 16 bytes of the digest. *)
Definition md5_digest (msg : list Z) : list Z :=
  let padded := pad msg in
  let '(a, b, c, d) :=
    fold_left (fun st j => compress st (block_words padded j))
              (seq 0 (length padded / 64)) init_state in
  bytes_le 4 a ++ bytes_le 4 b ++ bytes_le 4 c ++ bytes_le 4 d.

Definition hex_digit (n : Z) : ascii :=
  nth (Z.to_nat n)
      (list_ascii_of_string "0123456789abcdef") "0"%char.

Definition hex_of_bytes (bs : list Z) : string :=
  string_of_list_ascii
    (flat_map (fun b => [hex_digit (b / 16); hex_digit (b mod 16)]) bs).

(** [hashlib.md5(data).hexdigest()]. *)
Definition md5_hexdigest (data : list Z) : string :=
  hex_of_bytes (md5_digest data).

End hashlib.

(* ===================================================================== *)
(** ** itsdangerous.TimedJSONWebSignatureSerializer *)
(* ===================================================================== *)

Module itsdangerous.
Local Open Scope Z_scope.

(** The JSON object a token carries.  The application signs two shapes,
    [dict(user=id)] and [dict(talk=id, email=email)]; a field is [None]
    when the key is absent or its value is null, which is what
    [data.get(key)] returns in both cases. *)
Record payload : Type := Payload {
  user : option Z;
  talk : option Z;
  email : option string
}.

(** The JWS header fields the timed serializer writes and reads back. *)
Record header : Type := Header {
  iat : option Z;
  exp : option Z
}.

(** A token is text.  Either it splits into header, payload and signature,
    or it does not parse at all. *)
Inductive token : Type :=
  | Jws (h : header) (p : payload) (signature : string)
  | Malformed (text : string).

Record Serializer : Type := mkSerializer {
  secret_key : string;
  expires_in : Z
}.

Definition DEFAULT_EXPIRES_IN : Z := 3600.

Section Signer.
(** The keyed MAC over the encoded header and payload. *)
Variable mac : string -> header -> payload -> string.

(** [s.dumps(obj)] at clock reading [now]. *)
Definition dumps (s : Serializer) (now : Z) (obj : payload) : token :=
  let h := {| iat := Some now; exp := Some (now + expires_in s) |} in
  Jws h obj (mac (secret_key s) h obj).

(** [s.loads(token)] at clock reading [now]: the signature is verified
    first, then the expiry date in the header is checked. *)
Definition loads (s : Serializer) (now : Z) (t : token) : Py.result payload :=
  match t with
  | Malformed _ => Py.Raise (Py.BadSignature "No separator found in value")
  | Jws h p sig =>
      if negb (String.eqb sig (mac (secret_key s) h p)) then
        Py.Raise (Py.BadSignature "Signature does not match")
      else
        match exp h with
        | None => Py.Raise (Py.BadSignature "Missing expiry date")
        | Some e =>
            if negb (0 <? e) then
              Py.Raise (Py.BadSignature "expiry date is not an IntDate")
            else if e <? now then Py.Raise Py.SignatureExpired
            else Py.Ok p
        end
  end.

(** The signature of a token verifies under [key]. *)
Definition signature_ok (key : string) (t : token) : bool :=
  match t with
  | Jws h p sig => String.eqb sig (mac key h p)
  | Malformed _ => false
  end.

End Signer.

(** The expiry date a token carries, if any. *)
Definition expiry (t : token) : option Z :=
  match t with
  | Jws h _ _ => exp h
  | Malformed _ => None
  end.

(** The token's expiry date lies before [now]. *)
Definition expired (now : Z) (t : token) : bool :=
  match expiry t with
  | Some e => e <? now
  | None => false
  end.

(** The payload a token carries, if it parses. *)
Definition payload_of (t : token) : option payload :=
  match t with
  | Jws _ p _ => Some p
  | Malformed _ => None
  end.

End itsdangerous.

(* ===================================================================== *)
(** ** The mapped tables *)
(* ===================================================================== *)

(** A column declaration, with SQLAlchemy's defaults: a column is nullable
    unless it is a primary key, and not unique. *)
Module Column.

Record t : Type := mk {
  name : string;
  nullable : bool;
  unique : bool;
  primary_key : bool
}.

Definition plain (n : string) : t :=
  {| name := n; nullable := true; unique := false; primary_key := false |}.

Definition pk (n : string) : t :=
  {| name := n; nullable := false; unique := false; primary_key := true |}.

(** A stored value, as the constraint checker compares them. *)
Inductive value : Type :=
  | VInt (n : Z)
  | VStr (s : string)
  | VBool (b : bool).

#[global] Instance value_eq_dec : EqDecision value.
Proof. solve_decision. Defined.

End Column.

Module users.

Record row : Type := Row {
  id : option Z;
  email : option string;
  username : option string;
  is_admin : option bool;
  password_hash : option string;
  name : option string;
  location : option string;
  bio : option string;
  member_since : option Z;
  avatar_hash : option string
}.

#[global] Instance row_eq_dec : EqDecision row.
Proof. solve_decision. Defined.

Definition columns : list Column.t :=
  [ Column.pk "id";
    {| Column.name := "email"; Column.nullable := false;
       Column.unique := true; Column.primary_key := false |};
    {| Column.name := "username"; Column.nullable := false;
       Column.unique := true; Column.primary_key := false |};
    Column.plain "is_admin";
    Column.plain "password_hash";
    Column.plain "name";
    Column.plain "location";
    Column.plain "bio";
    Column.plain "member_since";
    Column.plain "avatar_hash" ].

(** The value a row stores in the column called [col]. *)
Definition cell (r : row) (col : string) : option Column.value :=
  if String.eqb col "id" then Column.VInt <$> id r
  else if String.eqb col "email" then Column.VStr <$> email r
  else if String.eqb col "username" then Column.VStr <$> username r
  else if String.eqb col "is_admin" then Column.VBool <$> is_admin r
  else if String.eqb col "password_hash" then Column.VStr <$> password_hash r
  else if String.eqb col "name" then Column.VStr <$> name r
  else if String.eqb col "location" then Column.VStr <$> location r
  else if String.eqb col "bio" then Column.VStr <$> bio r
  else if String.eqb col "member_since" then Column.VInt <$> member_since r
  else if String.eqb col "avatar_hash" then Column.VStr <$> avatar_hash r
  else None.

(** A freshly constructed object: every attribute is [None]. *)
Definition blank : row :=
  Row None None None None None None None None None None.

Definition set_password_hash (v : option string) (u : row) : row :=
  Row (id u) (email u) (username u) (is_admin u) v (name u) (location u)
      (bio u) (member_since u) (avatar_hash u).

Definition set_avatar_hash (v : option string) (u : row) : row :=
  Row (id u) (email u) (username u) (is_admin u) (password_hash u) (name u)
      (location u) (bio u) (member_since u) v.

Definition set_id (v : option Z) (u : row) : row :=
  Row v (email u) (username u) (is_admin u) (password_hash u) (name u)
      (location u) (bio u) (member_since u) (avatar_hash u).

End users.

Module talks.

Record row : Type := Row {
  id : option Z;
  title : option string;
  description : option string;
  slides : option string;
  video : option string;
  user_id : option Z;
  venue : option string;
  venue_url : option string;
  date : option Z
}.

#[global] Instance row_eq_dec : EqDecision row.
Proof. solve_decision. Defined.

End talks.

Module comments.

Record row : Type := Row {
  id : option Z;
  body : option string;
  body_html : option string;
  timestamp : option Z;
  author_id : option Z;
  author_name : option string;
  author_email : option string;
  notify : option bool;
  approved : option bool;
  talk_id : option Z
}.

#[global] Instance row_eq_dec : EqDecision row.
Proof. solve_decision. Defined.

Definition set_body_html (v : option string) (c : row) : row :=
  Row (id c) (body c) v (timestamp c) (author_id c) (author_name c)
      (author_email c) (notify c) (approved c) (talk_id c).

Definition set_body (v : option string) (c : row) : row :=
  Row (id c) v (body_html c) (timestamp c) (author_id c) (author_name c)
      (author_email c) (notify c) (approved c) (talk_id c).

Definition set_notify (v : option bool) (c : row) : row :=
  Row (id c) (body c) (body_html c) (timestamp c) (author_id c)
      (author_name c) (author_email c) v (approved c) (talk_id c).

End comments.

Module pending_emails.

Record row : Type := Row {
  id : option Z;
  name : option string;
  email : option string;
  subject : option string;
  body_text : option string;
  body_html : option string;
  talk_id : option Z;
  timestamp : option Z
}.

#[global] Instance row_eq_dec : EqDecision row.
Proof. solve_decision. Defined.

End pending_emails.

(* ===================================================================== *)
(** ** The database and the query forms the models use *)
(* ===================================================================== *)

Module DB.

Record t : Type := mk {
  users : list users.row;
  talks : list talks.row;
  comments : list comments.row;
  pending_emails : list pending_emails.row
}.

Definition empty : t := mk [] [] [] [].

Definition with_comments (cs : list comments.row) (db : t) : t :=
  mk (users db) (talks db) cs (pending_emails db).

Definition with_pending_emails (ps : list pending_emails.row) (db : t) : t :=
  mk (users db) (talks db) (comments db) ps.

Definition with_users (us : list users.row) (db : t) : t :=
  mk us (talks db) (comments db) (pending_emails db).

End DB.

Module Query.

(** SQL's [=] between two columns, or a column and a bound parameter:
    never true when either side is [NULL]. *)
Definition sql_eq {A} `{EqDecision A} (a b : option A) : bool :=
  match a, b with
  | Some x, Some y => bool_decide (x = y)
  | _, _ => false
  end.

(** [Column == value] with a Python value: [IS NULL] for [None], [=]
    otherwise. *)
Definition col_eq {A} `{EqDecision A} (col v : option A) : bool :=
  bool_decide (col = v).

(** [Model.query.get(ident)]: the row whose primary key is [ident]. *)
Definition get {A} (pk : A -> option Z) (rows : list A) (ident : option Z)
  : option A :=
  match ident with
  | Some i => find (fun r => sql_eq (pk r) (Some i)) rows
  | None => None
  end.

(** [query.update(dict(...))]: every selected row is rewritten in place. *)
Definition update {A} (sel : A -> bool) (f : A -> A) (rows : list A) : list A :=
  map (fun r => if sel r then f r else r) rows.

(** [query.delete()]. *)
Definition delete {A} (sel : A -> bool) (rows : list A) : list A :=
  List.filter (fun r => negb (sel r)) rows.

(** [query.count()]. *)
Definition count {A} (rows : list A) : Z := Z.of_nat (length rows).

End Query.

(** The relationships declared with [db.relationship] and their backrefs. *)
Module Rel.

(** [comment.author] *)
Definition comment_author (db : DB.t) (c : comments.row) : option users.row :=
  Query.get users.id (DB.users db) (comments.author_id c).

(** [comment.talk] *)
Definition comment_talk (db : DB.t) (c : comments.row) : option talks.row :=
  Query.get talks.id (DB.talks db) (comments.talk_id c).

(** [talk.author] *)
Definition talk_author (db : DB.t) (t : talks.row) : option users.row :=
  Query.get users.id (DB.users db) (talks.user_id t).

(** [talk.comments] *)
Definition talk_comments (db : DB.t) (t : talks.row) : list comments.row :=
  List.filter (fun c => Query.sql_eq (comments.talk_id c) (talks.id t))
              (DB.comments db).

(** [==] on two loaded objects (or [None]): objects of one session are
    the same object exactly when they are the same row. *)
Definition same_object (a b : option users.row) : bool :=
  bool_decide (a = b).

End Rel.

(* ===================================================================== *)
(** ** class Comment *)
(* ===================================================================== *)

Module Comment.

Definition allowed_tags : list string :=
  ["a"; "abbr"; "acronym"; "b"; "blockquote"; "code"; "em";
   "i"; "li"; "ol"; "pre"; "strong"; "ul"; "h1"; "h2";
   "h3"; "p"].

Section Sanitizer.
(** [markdown(text, output_format=fmt)] *)
Variable markdown : string -> string -> string.
(** [bleach.clean(text, tags=tags, strip=strip)] *)
Variable bleach_clean : string -> list string -> bool -> string.
(** [bleach.linkify(text)] *)
Variable bleach_linkify : string -> string.

Definition on_changed_body (target : comments.row) (value : string)
    (old_value : option string) : comments.row :=
  comments.set_body_html
    (Some (bleach_linkify
             (bleach_clean (markdown value "html") allowed_tags true)))
    target.

(** Assignment to [comment.body]: the listener registered with
    [db.event.listen(Comment.body, 'set', Comment.on_changed_body)] runs
    on the target, then the attribute takes the new value. *)
Definition assign_body (c : comments.row) (value : string) : comments.row :=
  comments.set_body (Some value) (on_changed_body c value (comments.body c)).

End Sanitizer.

Definition for_moderation (db : DB.t) : list comments.row :=
  List.filter (fun c => Query.col_eq (comments.approved c) (Some false))
              (DB.comments db).

(** The body of the loop of [notification_list], for one [comment] of the
    talk; [result] is the dictionary built so far.  [comment.talk.author]
    is evaluated only when [comment.notify] is true. *)
Definition notification_step (db : DB.t) (self : comments.row)
    (result : gmap (option string) (option string)) (comment : comments.row)
  : Py.result (gmap (option string) (option string)) :=
  if Py.truthy_bool (comments.notify comment) then
    match Rel.comment_talk db comment with
    | None =>
        Py.Raise (Py.AttributeError "'NoneType' object has no attribute 'author'")
    | Some comment_talk =>
        if negb (Rel.same_object (Rel.comment_author db comment)
                                 (Rel.talk_author db comment_talk))
        then
          match Rel.comment_author db comment with
          | Some comment_author =>
              if negb (Rel.same_object (Rel.comment_author db self)
                                       (Some comment_author))
              then
                let author := Py.or_str (users.name comment_author)
                                        (users.username comment_author) in
                Py.Ok (<[users.email comment_author := author]> result)
              else Py.Ok result
          | None =>
              if negb (bool_decide (comments.author_email self
                                    = comments.author_email comment))
              then
                Py.Ok (<[comments.author_email comment
                         := comments.author_name comment]> result)
              else Py.Ok result
          end
        else Py.Ok result
    end
  else Py.Ok result.

Fixpoint notification_loop (db : DB.t) (self : comments.row)
    (result : gmap (option string) (option string))
    (cs : list comments.row)
  : Py.result (gmap (option string) (option string)) :=
  match cs with
  | [] => Py.Ok result
  | comment :: rest =>
      Py.bind (notification_step db self result comment)
              (fun result' => notification_loop db self result' rest)
  end.

Definition notification_list (db : DB.t) (self : comments.row)
  : Py.result (list (option string * option string)) :=
  match Rel.comment_talk db self with
  | None => Py.Raise (Py.AttributeError "'NoneType' object has no attribute 'comments'")
  | Some talk =>
      Py.bind (notification_loop db self ∅ (Rel.talk_comments db talk))
              (fun result => Py.Ok (map_to_list result))
  end.

End Comment.

(* ===================================================================== *)
(** ** class User *)
(* ===================================================================== *)

Module User.

(** The constructor [User]: the base constructor assigns the keyword arguments
    to the mapped attributes ([kwargs] holds them, [None] where none was
    given), then the avatar hash is derived when it is still unset. *)
Definition __init__ (kwargs : users.row) : users.row :=
  let self := kwargs in
  match users.email self, users.avatar_hash self with
  | Some email, None =>
      users.set_avatar_hash
        (Some (hashlib.md5_hexdigest (Py.encode_utf8 email))) self
  | _, _ => self
  end.

(** The getter of the [password] property. *)
Definition password (self : users.row) : Py.result string :=
  Py.Raise (Py.AttributeError "password is not a readable attribute").

Section Werkzeug.
(** [generate_password_hash(password)]; [salt] stands for the random salt
    the call draws. *)
Variable generate_password_hash : string -> string -> string.
(** [check_password_hash(pwhash, password)] *)
Variable check_password_hash : string -> string -> bool.

(** The setter of the [password] property. *)
Definition password_setter (salt : string) (self : users.row)
    (password : string) : users.row :=
  users.set_password_hash (Some (generate_password_hash salt password)) self.

Definition verify_password (self : users.row) (password : string)
  : Py.result bool :=
  match users.password_hash self with
  | Some pwhash => Py.Ok (check_password_hash pwhash password)
  | None => Py.Raise (Py.AttributeError "'NoneType' object has no attribute 'count'")
  end.

End Werkzeug.

(** [hashlib.md5(self.email.encode('utf-8')).hexdigest()] *)
Definition email_md5 (self : users.row) : Py.result string :=
  match users.email self with
  | Some email => Py.Ok (hashlib.md5_hexdigest (Py.encode_utf8 email))
  | None => Py.Raise (Py.AttributeError "'NoneType' object has no attribute 'encode'")
  end.

(** [self.gravatar(size, default, rating)]; [is_secure] is
    [request.is_secure]. *)
Definition gravatar (is_secure : bool) (self : users.row) (size : Z)
    (default rating : string) : Py.result string :=
  let url :=
    if is_secure then "https://secure.gravatar.com/avatar"
    else "http://www.gravatar.com/avatar" in
  let email_hash :=
    if Py.truthy_str (users.avatar_hash self)
    then Py.Ok (from_option (fun h => h) "" (users.avatar_hash self))
    else email_md5 self in
  Py.bind email_hash (fun h =>
    Py.Ok (url ++ "/" ++ h ++ "?s=" ++ Py.str_of_int size
               ++ "&d=" ++ default ++ "&r=" ++ rating)%string).

(** [self.for_moderation(admin)]: the rows the returned query selects. *)
Definition for_moderation (db : DB.t) (self : users.row) (admin : bool)
  : list comments.row :=
  if admin && Py.truthy_bool (users.is_admin self) then
    Comment.for_moderation db
  else
    let joined :=
      flat_map (fun c =>
        flat_map (fun t =>
          if Query.sql_eq (comments.talk_id c) (talks.id t)
          then [(c, t)] else [])
          (DB.talks db))
        (DB.comments db) in
    let by_author :=
      List.filter (fun ct => Query.sql_eq (talks.user_id (snd ct)) (users.id self))
                  joined in
    let unapproved :=
      List.filter (fun ct => Query.col_eq (comments.approved (fst ct)) (Some false))
                  by_author in
    map fst unapproved.

Section Tokens.
Variable mac : string -> itsdangerous.header -> itsdangerous.payload -> string.
(** [current_app.config['SECRET_KEY']] *)
Variable SECRET_KEY : string.

(** [self.get_api_token(expiration)] at clock reading [now]. *)
Definition get_api_token (self : users.row) (now : Z) (expiration : Z)
  : itsdangerous.token :=
  let s := itsdangerous.mkSerializer SECRET_KEY expiration in
  itsdangerous.dumps mac s now
    (itsdangerous.Payload (users.id self) None None).

(** [User.validate_api_token(token)] at clock reading [now]. *)
Definition validate_api_token (db : DB.t) (now : Z) (token : itsdangerous.token)
  : option users.row :=
  let s := itsdangerous.mkSerializer SECRET_KEY itsdangerous.DEFAULT_EXPIRES_IN in
  Py.try_except (itsdangerous.loads mac s now token)
    (fun data =>
       let id := itsdangerous.user data in
       if Py.truthy_int id then Query.get users.id (DB.users db) id
       else None)
    None.

End Tokens.

End User.

(** [load_user(user_id)], the login manager's loader; [user_id] is the
    integer [int(user_id)]. *)
Definition load_user (db : DB.t) (user_id : Z) : option users.row :=
  Query.get users.id (DB.users db) (Some user_id).

(* ===================================================================== *)
(** ** class Talk *)
(* ===================================================================== *)

Module Talk.

Definition approved_comments (db : DB.t) (self : talks.row)
  : list comments.row :=
  List.filter (fun c => Query.col_eq (comments.approved c) (Some true))
              (Rel.talk_comments db self).

Section Tokens.
Variable mac : string -> itsdangerous.header -> itsdangerous.payload -> string.
(** [current_app.config['SECRET_KEY']] *)
Variable SECRET_KEY : string.

(** [self.get_unsubscribe_token(email, expiration)] at clock reading [now]. *)
Definition get_unsubscribe_token (self : talks.row) (now : Z)
    (email : option string) (expiration : Z) : itsdangerous.token :=
  let s := itsdangerous.mkSerializer SECRET_KEY expiration in
  itsdangerous.dumps mac s now
    (itsdangerous.Payload None (talks.id self) email).

(** [Talk.unsubscribe_user(token)] at clock reading [now]: the returned
    pair and the database after the call. *)
Definition unsubscribe_user (db : DB.t) (now : Z) (token : itsdangerous.token)
  : (option talks.row * option string) * DB.t :=
  let s := itsdangerous.mkSerializer SECRET_KEY itsdangerous.DEFAULT_EXPIRES_IN in
  Py.try_except (itsdangerous.loads mac s now token)
    (fun data =>
       let id := itsdangerous.talk data in
       let email := itsdangerous.email data in
       if negb (Py.truthy_int id) || negb (Py.truthy_str email) then
         ((None, None), db)
       else
         match Query.get talks.id (DB.talks db) id with
         | None => ((None, None), db)
         | Some talk =>
             let updated :=
               Query.update
                 (fun c => Query.sql_eq (comments.talk_id c) (talks.id talk)
                           && Query.col_eq (comments.author_email c) email)
                 (comments.set_notify (Some false))
                 (DB.comments db) in
             ((Some talk, email), DB.with_comments updated db)
         end)
    ((None, None), db).

End Tokens.

End Talk.

(* ===================================================================== *)
(** ** class PendingEmail *)
(* ===================================================================== *)

Module PendingEmail.

Definition already_in_queue (db : DB.t) (email : option string)
    (talk : talks.row) : bool :=
  let pending_email_count :=
    Query.count
      (List.filter
         (fun p => Query.col_eq (pending_emails.email p) email)
         (List.filter
            (fun p => Query.col_eq (pending_emails.talk_id p) (talks.id talk))
            (DB.pending_emails db))) in
  (pending_email_count >? 0)%Z.

Definition remove (db : DB.t) (email : option string) : DB.t :=
  DB.with_pending_emails
    (Query.delete (fun p => Query.col_eq (pending_emails.email p) email)
                  (DB.pending_emails db))
    db.

End PendingEmail.

(* ===================================================================== *)
(** ** What the database enforces from the column declarations *)
(* ===================================================================== *)

Module Engine.

Definition is_some {A} (o : option A) : bool :=
  match o with
  | Some _ => true
  | None => false
  end.

(** No two stored (non-NULL) values of the list are equal. *)
Fixpoint no_clash (vs : list (option Column.value)) : bool :=
  match vs with
  | [] => true
  | v :: rest =>
      match v with
      | Some x => negb (existsb (fun w => bool_decide (w = Some x)) rest)
      | None => true
      end && no_clash rest
  end.

Section Table.
Context {A : Type}.
Variable cell : A -> string -> option Column.value.

(** NOT NULL: a column declared [nullable=False] holds a value in every row. *)
Definition not_null_ok (cols : list Column.t) (rows : list A) : bool :=
  forallb (fun col =>
             Column.nullable col
             || forallb (fun r => is_some (cell r (Column.name col))) rows)
          cols.

(** UNIQUE and PRIMARY KEY: the values of such a column are pairwise
    distinct. *)
Definition unique_ok (cols : list Column.t) (rows : list A) : bool :=
  forallb (fun col =>
             negb (Column.unique col || Column.primary_key col)
             || no_clash (map (fun r => cell r (Column.name col)) rows))
          cols.

Definition constraints_ok (cols : list Column.t) (rows : list A) : bool :=
  not_null_ok cols rows && unique_ok cols rows.

End Table.

(** A change to table [users] that a session flushes. *)
Inductive change : Type :=
  | Insert (u : users.row)
  | Update (i : nat) (u : users.row)
  | Delete (i : nat).

(** The key an autoincrementing primary key gives a new row. *)
Definition next_id (rows : list users.row) : Z :=
  (1 + fold_right (fun r m => Z.max (from_option (fun z => z) 0 (users.id r)) m)
                  0 rows)%Z.

Definition apply_change (rows : list users.row) (ch : change)
  : list users.row :=
  match ch with
  | Insert u =>
      rows ++ [match users.id u with
               | Some _ => u
               | None => users.set_id (Some (next_id rows)) u
               end]
  | Update i u => <[i := u]> rows
  | Delete i => delete i rows
  end.

(** [db.session.commit()] of one change to [users]: the database refuses
    it with an integrity error, and keeps its state, when a declared
    constraint would be broken. *)
Definition commit (db : DB.t) (ch : change) : Py.result DB.t :=
  let rows := apply_change (DB.users db) ch in
  if constraints_ok users.cell users.columns rows then
    Py.Ok (DB.with_users rows db)
  else Py.Raise (Py.IntegrityError "constraint failed").

(** The states a database goes through: it starts empty; table [users]
    changes by committed changes only; the other tables change freely. *)
Inductive reachable : DB.t -> Prop :=
  | reach_empty : reachable DB.empty
  | reach_commit db ch db' :
      reachable db -> commit db ch = Py.Ok db' -> reachable db'
  | reach_other db db' :
      reachable db -> DB.users db' = DB.users db -> reachable db'.

End Engine.

(* ===================================================================== *)
(** ** Vocabulary of the properties *)
(* ===================================================================== *)

(** Comment [m] of [talk] contributes the entry [(k, v)] to the
    notification list of [self]: it asks for mail, it is not by the author
    of the talk, and either it has a registered author other than the
    author of [self], whose email and display name make the entry, or it
    is anonymous with an [author_email] other than that of [self], and its
    [author_email] and [author_name] make the entry. *)
Definition contributes (db : DB.t) (self : comments.row) (talk : talks.row)
    (m : comments.row) (k v : option string) : Prop :=
  Py.truthy_bool (comments.notify m) = true
  /\ Rel.comment_author db m <> Rel.talk_author db talk
  /\ ((exists a,
         Rel.comment_author db m = Some a
         /\ Rel.comment_author db self <> Some a
         /\ k = users.email a
         /\ v = Py.or_str (users.name a) (users.username a))
      \/ (Rel.comment_author db m = None
          /\ comments.author_email self <> comments.author_email m
          /\ k = comments.author_email m
          /\ v = comments.author_name m)).

(* ===================================================================== *)
(** ** A small database and stand-ins for the libraries *)
(* ===================================================================== *)

Module Sample.
Local Open Scope Z_scope.

Definition alice : users.row :=
  users.Row (Some 1) (Some "alice@example.com") (Some "alice") (Some true)
            None (Some "Alice") None None (Some 1400000000)
            (Some "c160f8cc69a4f0bf2b0362752353d060").

Definition bob : users.row :=
  users.Row (Some 2) (Some "bob@example.com") (Some "bob") (Some false)
            None None None None (Some 1400000100) None.

Definition talk1 : talks.row :=
  talks.Row (Some 1) (Some "Flask in practice") None None None (Some 1)
            None None None.

Definition talk2 : talks.row :=
  talks.Row (Some 2) (Some "Testing") None None None (Some 2) None None None.

(** Bob, logged in, on Alice's talk. *)
Definition comment1 : comments.row :=
  comments.Row (Some 1) (Some "Nice talk") (Some "<p>Nice talk</p>")
               (Some 1400000200) (Some 2) None None (Some true) (Some false)
               (Some 1).

(** An anonymous visitor on Alice's talk. *)
Definition comment2 : comments.row :=
  comments.Row (Some 2) (Some "Thanks") (Some "<p>Thanks</p>")
               (Some 1400000300) None (Some "Carol") (Some "carol@example.com")
               (Some true) (Some true) (Some 1).

(** Alice on her own talk. *)
Definition comment3 : comments.row :=
  comments.Row (Some 3) (Some "Welcome") (Some "<p>Welcome</p>")
               (Some 1400000400) (Some 1) None None (Some true) (Some true)
               (Some 1).

(** An anonymous visitor who does not want mail, on Alice's talk. *)
Definition comment4 : comments.row :=
  comments.Row (Some 4) (Some "Hm") (Some "<p>Hm</p>")
               (Some 1400000500) None (Some "Dave") (Some "dave@example.com")
               (Some false) (Some false) (Some 1).

(** Alice on Bob's talk. *)
Definition comment5 : comments.row :=
  comments.Row (Some 5) (Some "Good") (Some "<p>Good</p>")
               (Some 1400000600) (Some 1) None None (Some true) (Some false)
               (Some 2).

Definition mail1 : pending_emails.row :=
  pending_emails.Row (Some 1) (Some "Carol") (Some "carol@example.com")
                     (Some "New comment") None None (Some 1) (Some 1400000700).

Definition db : DB.t :=
  DB.mk [alice; bob] [talk1; talk2]
        [comment1; comment2; comment3; comment4; comment5] [mail1].

(** A user stored under the primary key 0, alone in a database. *)
Definition zero : users.row :=
  users.Row (Some 0) (Some "zero@example.com") (Some "zero") (Some false)
            None None None None None None.

Definition db0 : DB.t := DB.mk [zero] [] [] [].

(** An anonymous visitor who signs with Bob's address, on Alice's talk. *)
Definition comment6 : comments.row :=
  comments.Row (Some 6) (Some "Me again") (Some "<p>Me again</p>")
               (Some 1400000650) None (Some "Bob") (Some "bob@example.com")
               (Some true) (Some false) (Some 1).

Definition db_cross : DB.t :=
  DB.with_comments (DB.comments db ++ [comment6]) db.

(** An anonymous comment on Alice's talk that nobody has decided on. *)
Definition comment7 : comments.row :=
  comments.Row (Some 7) (Some "Hello") (Some "<p>Hello</p>")
               (Some 1400000700) None (Some "Eve") (Some "eve@example.com")
               (Some true) None (Some 1).

Definition db_undecided : DB.t :=
  DB.with_comments (DB.comments db ++ [comment7]) db.

(** [User(email='john@example.com', username='john')] *)
Definition john_kwargs : users.row :=
  users.Row None (Some "john@example.com") (Some "john") None None None None
            None None None.

(** [User(email='john@example.com', username='john', avatar_hash='0')] *)
Definition john_custom_kwargs : users.row :=
  users.Row None (Some "john@example.com") (Some "john") None None None None
            None None (Some "0").

Definition show_int (o : option Z) : string :=
  match o with
  | Some n => Py.str_of_int n
  | None => "null"
  end.

(** A keyed digest standing in for the signer's MAC: the MD5 of the key
    followed by the header and payload fields. *)
Definition mac (key : string) (h : itsdangerous.header)
    (p : itsdangerous.payload) : string :=
  hashlib.md5_hexdigest
    (Py.encode_utf8
       (key ++ "|" ++ show_int (itsdangerous.iat h)
            ++ "|" ++ show_int (itsdangerous.exp h)
            ++ "|" ++ show_int (itsdangerous.user p)
            ++ "|" ++ show_int (itsdangerous.talk p)
            ++ "|" ++ from_option (fun e => e) "null" (itsdangerous.email p))%string).

Definition SECRET_KEY : string := "hard to guess string".

(** An unsalted digest standing in for the password hasher. *)
Definition generate_password_hash (salt password : string) : string :=
  hashlib.md5_hexdigest (Py.encode_utf8 password).

Definition check_password_hash (pwhash password : string) : bool :=
  String.eqb pwhash (hashlib.md5_hexdigest (Py.encode_utf8 password)).

(** Stand-ins for markdown and bleach on texts with at most a leading
    paragraph tag. *)
Definition markdown (text fmt : string) : string :=
  ("<p>" ++ text ++ "</p>")%string.

Definition html_tags (text : string) : list string :=
  if String.prefix "<p>" text then ["p"] else [].

Definition bleach_clean (text : string) (tags : list string) (strip : bool)
  : string :=
  if existsb (String.eqb "p") tags then text else "".

Definition bleach_linkify (text : string) : string := text.

End Sample.

(* ===================================================================== *)
(** * Properties *)
(* ===================================================================== *)

(** Test vectors of RFC 1321, section A.5. *)
Example md5_empty : hashlib.md5_hexdigest (Py.encode_utf8 "") = "d41d8cd98f00b204e9800998ecf8427e".
Proof. vm_compute. reflexivity. Qed.

Example md5_abc : hashlib.md5_hexdigest (Py.encode_utf8 "abc") = "900150983cd24fb0d6963f7d28e17f72".
Proof. vm_compute. reflexivity. Qed.

Example md5_two_blocks :
  hashlib.md5_hexdigest
    (Py.encode_utf8 "12345678901234567890123456789012345678901234567890123456789012345678901234567890")
  = "57edf4a22be3c955ac49da2e2107b67a".
Proof. vm_compute. reflexivity. Qed.

(* ===================================================================== *)
(** ** Query forms *)
(* ===================================================================== *)

Lemma col_eq_true {A} `{EqDecision A} (col v : option A) :
  Query.col_eq col v = true <-> col = v.
Proof. unfold Query.col_eq. apply bool_decide_eq_true. Qed.

Lemma sql_eq_true {A} `{EqDecision A} (a b : option A) :
  Query.sql_eq a b = true <-> exists x, a = Some x /\ b = Some x.
Proof.
  unfold Query.sql_eq. destruct a as [x|], b as [y|]; simpl.
  - rewrite bool_decide_eq_true. split.
    + intros ->. eauto.
    + intros (z & Hx & Hy). congruence.
  - split; [discriminate | intros (z & _ & Hz); discriminate].
  - split; [discriminate | intros (z & Hz & _); discriminate].
  - split; [discriminate | intros (z & Hz & _); discriminate].
Qed.

Lemma elem_of_filter_bool {A} (f : A -> bool) (l : list A) (x : A) :
  x ∈ List.filter f l <-> x ∈ l /\ f x = true.
Proof. rewrite !list_elem_of_In. apply filter_In. Qed.

Lemma count_pos {A} (l : list A) :
  (Query.count l >? 0)%Z = true <-> exists x, x ∈ l.
Proof.
  unfold Query.count. destruct l as [|a l]; simpl.
  - split; [discriminate | intros [x Hx]; inversion Hx].
  - split; [intros _; exists a; constructor | intros _; reflexivity].
Qed.

(** [Query.get] returns a row of the table that carries the key asked for. *)
Lemma get_Some {A} (pk : A -> option Z) (rows : list A) ident r :
  Query.get pk rows ident = Some r ->
  r ∈ rows /\ exists i, ident = Some i /\ pk r = Some i.
Proof.
  unfold Query.get. destruct ident as [i|]; [|discriminate].
  intros Hf. apply find_some in Hf as [Hin Heq].
  apply sql_eq_true in Heq as (x & Hx & Hi).
  split; [by apply list_elem_of_In |].
  exists i. split; [done | congruence].
Qed.

(** [Query.get] finds nothing exactly when no row carries the key. *)
Lemma get_None {A} (pk : A -> option Z) (rows : list A) (i : Z) :
  Query.get pk rows (Some i) = None <-> forall r, r ∈ rows -> pk r <> Some i.
Proof.
  unfold Query.get. split.
  - intros Hf r Hin Hpk.
    apply list_elem_of_In in Hin.
    pose proof (find_none _ _ Hf r Hin) as Hn. simpl in Hn.
    rewrite Hpk in Hn. simpl in Hn.
    rewrite bool_decide_eq_false in Hn. congruence.
  - intros Hall. destruct (find _ rows) as [r|] eqn:Hf; [|done].
    apply find_some in Hf as [Hin Heq].
    apply sql_eq_true in Heq as (x & Hx & Hi).
    exfalso. apply (Hall r); [by apply list_elem_of_In | congruence].
Qed.

(* ===================================================================== *)
(** ** PendingEmail *)
(* ===================================================================== *)

(** The count is positive exactly when a row passes both filters. *)
Lemma already_in_queue_true (db : DB.t) (e : option string) (t : talks.row) :
  PendingEmail.already_in_queue db e t = true
  <-> exists p, p ∈ DB.pending_emails db
                /\ pending_emails.talk_id p = talks.id t
                /\ pending_emails.email p = e.
Proof.
  unfold PendingEmail.already_in_queue. rewrite count_pos.
  split.
  - intros [p Hp]. exists p.
    apply elem_of_filter_bool in Hp as [Hp He].
    apply elem_of_filter_bool in Hp as [Hp Ht].
    apply col_eq_true in He. apply col_eq_true in Ht. done.
  - intros (p & Hp & Ht & He). exists p.
    apply elem_of_filter_bool. split; [|by apply col_eq_true].
    apply elem_of_filter_bool. split; [done | by apply col_eq_true].
Qed.

(** C5. [PendingEmail.already_in_queue(e, t)] returns [True] if and only
    if at least one row of [pending_emails] has [talk_id] equal to [t.id]
    and [email] equal to [e]; otherwise it returns [False]. *)
Theorem already_in_queue_iff (db : DB.t) (e : option string) (t : talks.row) :
  (PendingEmail.already_in_queue db e t = true
   <-> exists p, p ∈ DB.pending_emails db
                 /\ pending_emails.talk_id p = talks.id t
                 /\ pending_emails.email p = e)
  /\ (PendingEmail.already_in_queue db e t = false
      <-> forall p, p ∈ DB.pending_emails db ->
                    pending_emails.talk_id p = talks.id t ->
                    pending_emails.email p <> e).
Proof.
  split; [apply already_in_queue_true |].
  rewrite <- not_true_iff_false, already_in_queue_true. split.
  - intros Hnone p Hp Ht He. apply Hnone. eauto.
  - intros Hall (p & Hp & Ht & He). by apply (Hall p).
Qed.

(** The check is what deduplicates the queue: once a mail for [(e, t)] has
    been queued, the check answers true, whatever else is queued later. *)
Lemma already_in_queue_after_enqueue (db : DB.t) (p : pending_emails.row)
    (rest : list pending_emails.row) (t : talks.row) :
  pending_emails.talk_id p = talks.id t ->
  PendingEmail.already_in_queue
    (DB.with_pending_emails (DB.pending_emails db ++ p :: rest) db)
    (pending_emails.email p) t = true.
Proof.
  intros Ht. apply already_in_queue_true. exists p. simpl.
  split; [|done]. apply elem_of_app. right. constructor.
Qed.

(** Removing the mails of an address empties the queue for it. *)
Lemma already_in_queue_after_remove (db : DB.t) (e : option string)
    (t : talks.row) :
  PendingEmail.already_in_queue (PendingEmail.remove db e) e t = false.
Proof.
  apply not_true_is_false. rewrite already_in_queue_true.
  intros (p & Hp & _ & He). unfold PendingEmail.remove in Hp. simpl in Hp.
  unfold Query.delete in Hp. apply elem_of_filter_bool in Hp as [_ Hn].
  apply negb_true_iff in Hn. apply not_true_iff_false in Hn.
  apply Hn. by apply col_eq_true.
Qed.

(* ===================================================================== *)
(** ** Moderation queues *)
(* ===================================================================== *)

(** The join of [User.for_moderation], row by row. *)
Lemma for_moderation_join (db : DB.t) (u : users.row) (admin : bool)
    (c : comments.row) :
  admin && Py.truthy_bool (users.is_admin u) = false ->
  c ∈ User.for_moderation db u admin
  <-> c ∈ DB.comments db
      /\ comments.approved c = Some false
      /\ exists t, t ∈ DB.talks db
                   /\ Query.sql_eq (comments.talk_id c) (talks.id t) = true
                   /\ Query.sql_eq (talks.user_id t) (users.id u) = true.
Proof.
  intros Hmode. unfold User.for_moderation. rewrite Hmode.
  rewrite list_elem_of_In, in_map_iff. split.
  - intros ([c' t] & Hfst & Hin). simpl in Hfst. subst c'.
    apply filter_In in Hin as [Hin Happ]. simpl in Happ.
    apply filter_In in Hin as [Hin Hauth]. simpl in Hauth.
    apply in_flat_map in Hin as (c1 & Hc1 & Hin).
    apply in_flat_map in Hin as (t1 & Ht1 & Hin).
    destruct (Query.sql_eq (comments.talk_id c1) (talks.id t1)) eqn:Hon;
      [|inversion Hin].
    destruct Hin as [Heq | []]. inversion Heq; subst c1 t1.
    split; [by apply list_elem_of_In |].
    split; [by apply col_eq_true |].
    exists t. split; [by apply list_elem_of_In | done].
  - intros (Hc & Happ & t & Ht & Hon & Hauth).
    exists (c, t). split; [done |].
    apply filter_In. split; [|by apply col_eq_true].
    apply filter_In. split; [|done].
    apply in_flat_map. exists c. split; [by apply list_elem_of_In |].
    apply in_flat_map. exists t. split; [by apply list_elem_of_In |].
    rewrite Hon. by left.
Qed.

(** C4. [Comment.for_moderation()] selects exactly the comments whose
    [approved] flag is false.  [u.for_moderation(admin)] is that same
    query when [admin] is true and [u] is an administrator; otherwise it
    selects exactly the unapproved comments whose talk is authored by [u]. *)
Theorem for_moderation_spec (db : DB.t) :
  (forall c, c ∈ Comment.for_moderation db
             <-> c ∈ DB.comments db /\ comments.approved c = Some false)
  /\ (forall u, users.is_admin u = Some true ->
                User.for_moderation db u true = Comment.for_moderation db)
  /\ (forall u admin c,
        admin = false \/ users.is_admin u <> Some true ->
        c ∈ User.for_moderation db u admin
        <-> c ∈ DB.comments db
            /\ comments.approved c = Some false
            /\ exists t i j,
                 t ∈ DB.talks db
                 /\ comments.talk_id c = Some i /\ talks.id t = Some i
                 /\ talks.user_id t = Some j /\ users.id u = Some j).
Proof.
  split; [|split].
  - intros c. unfold Comment.for_moderation.
    rewrite elem_of_filter_bool, col_eq_true. done.
  - intros u Hadmin. unfold User.for_moderation. rewrite Hadmin. done.
  - intros u admin c Hmode.
    assert (admin && Py.truthy_bool (users.is_admin u) = false) as Hb.
    { destruct Hmode as [-> | Hna]; [done |].
      destruct admin; [|done]. simpl.
      destruct (users.is_admin u) as [[|]|]; simpl; congruence. }
    rewrite (for_moderation_join db u admin c Hb).
    split.
    + intros (Hc & Happ & t & Ht & Hon & Hauth).
      apply sql_eq_true in Hon as (i & Hi1 & Hi2).
      apply sql_eq_true in Hauth as (j & Hj1 & Hj2).
      split; [done |]. split; [done |]. exists t, i, j. done.
    + intros (Hc & Happ & t & i & j & Ht & Hi1 & Hi2 & Hj1 & Hj2).
      split; [done |]. split; [done |]. exists t.
      split; [done |]. split; apply sql_eq_true; eauto.
Qed.

(* ===================================================================== *)
(** ** Passwords *)
(* ===================================================================== *)

(** C10. Reading [password] raises [AttributeError] for every user,
    also right after a password was assigned; and the user that results
    from an assignment is a function of the hash of the password alone, so
    nothing computed from the user can depend on the plaintext beyond its
    hash. *)
Theorem password_write_only
    (generate_password_hash : string -> string -> string)
    (salt : string) (u : users.row) :
  User.password u
  = Py.Raise (Py.AttributeError "password is not a readable attribute")
  /\ (forall p,
        User.password (User.password_setter generate_password_hash salt u p)
        = Py.Raise (Py.AttributeError "password is not a readable attribute"))
  /\ exists from_hash : string -> users.row,
       forall p, User.password_setter generate_password_hash salt u p
                 = from_hash (generate_password_hash salt p).
Proof.
  split; [reflexivity |]. split; [reflexivity |].
  exists (fun h => users.set_password_hash (Some h) u).
  intros p. reflexivity.
Qed.

Section Passwords.
Variable generate_password_hash : string -> string -> string.
Variable check_password_hash : string -> string -> bool.

(** What werkzeug promises of its two functions: a hash it generated
    checks against the password it was generated from. *)
Hypothesis check_generated :
  forall salt p, check_password_hash (generate_password_hash salt p) p = true.

(** C7. After [u.password = p], [u.verify_password(p)] returns [True];
    the assignment stores the generated hash of [p] in [password_hash] and
    writes no other attribute. *)
Theorem verify_password_after_set (salt : string) (u : users.row)
    (p : string) :
  let u' := User.password_setter generate_password_hash salt u p in
  User.verify_password check_password_hash u' p = Py.Ok true
  /\ users.password_hash u' = Some (generate_password_hash salt p)
  /\ users.set_password_hash (users.password_hash u) u' = u.
Proof.
  simpl. unfold User.verify_password, User.password_setter. simpl.
  rewrite check_generated. split; [done |]. split; [done |].
  by destruct u.
Qed.

End Passwords.

(** The stand-in hasher keeps werkzeug's promise. *)
Lemma sample_check_generated salt p :
  Sample.check_password_hash (Sample.generate_password_hash salt p) p = true.
Proof. apply String.eqb_refl. Qed.

Lemma verify_password_after_set_witness :
  User.verify_password Sample.check_password_hash
    (User.password_setter Sample.generate_password_hash "NaCl" Sample.bob "cat")
    "cat" = Py.Ok true
  /\ users.password_hash
       (User.password_setter Sample.generate_password_hash "NaCl" Sample.bob "cat")
     = Some "d077f244def8a70e5ea758bd8352fcd8".
Proof.
  pose proof (verify_password_after_set
                Sample.generate_password_hash Sample.check_password_hash
                sample_check_generated "NaCl" Sample.bob "cat") as (Hv & Hh & _).
  split; [exact Hv |]. rewrite Hh. vm_compute. reflexivity.
Defined.

(* ===================================================================== *)
(** ** Comment bodies *)
(* ===================================================================== *)

Section Bodies.
Variable markdown : string -> string -> string.
Variable bleach_clean : string -> list string -> bool -> string.
Variable bleach_linkify : string -> string.
(** The names of the tags that occur in an HTML text. *)
Variable html_tags : string -> list string.

(** What bleach promises: with [strip=True], [clean] leaves no tag outside
    [tags]; [linkify] adds anchors and no other tag. *)
Hypothesis clean_leaves_allowed :
  forall text tags t, t ∈ html_tags (bleach_clean text tags true) -> t ∈ tags.
Hypothesis linkify_adds_anchors :
  forall text t,
    t ∈ html_tags (bleach_linkify text) -> t = "a" \/ t ∈ html_tags text.

(** Assigning a body writes [body] and [body_html] and nothing else. *)
Lemma assign_body_frame (c : comments.row) (value : string) :
  let c' := Comment.assign_body markdown bleach_clean bleach_linkify c value in
  comments.set_body (comments.body c)
    (comments.set_body_html (comments.body_html c) c') = c.
Proof. by destruct c. Qed.

(** C1. Whenever [body] is assigned, on a new comment or an existing one,
    [body_html] becomes the new body rendered by markdown as HTML, cleaned
    by bleach with the seventeen allowed tags and [strip=True], then
    linkified; so it carries no tag outside that list. *)
Theorem body_html_sanitized (c : comments.row) (value : string) :
  let tags :=
    ["a"; "abbr"; "acronym"; "b"; "blockquote"; "code"; "em"; "i"; "li";
     "ol"; "pre"; "strong"; "ul"; "h1"; "h2"; "h3"; "p"] in
  let c' := Comment.assign_body markdown bleach_clean bleach_linkify c value in
  comments.body c' = Some value
  /\ comments.body_html c'
     = Some (bleach_linkify (bleach_clean (markdown value "html") tags true))
  /\ (forall html t,
        comments.body_html c' = Some html -> t ∈ html_tags html -> t ∈ tags).
Proof.
  simpl. split; [reflexivity |]. split; [reflexivity |].
  intros html t Hhtml Ht. injection Hhtml as <-.
  apply linkify_adds_anchors in Ht as [-> | Ht].
  - constructor.
  - apply clean_leaves_allowed in Ht. exact Ht.
Qed.

End Bodies.

(** The stand-ins keep bleach's promises. *)
Lemma sample_clean_leaves_allowed text tags t :
  t ∈ Sample.html_tags (Sample.bleach_clean text tags true) -> t ∈ tags.
Proof.
  unfold Sample.bleach_clean, Sample.html_tags.
  destruct (existsb (String.eqb "p") tags) eqn:Hp.
  - destruct (String.prefix "<p>" text); [|intros H; inversion H].
    intros Ht. apply list_elem_of_singleton in Ht as ->.
    apply existsb_exists in Hp as (x & Hx & Heq).
    apply String.eqb_eq in Heq as <-. by apply list_elem_of_In.
  - simpl. intros H. inversion H.
Qed.

Lemma sample_linkify_adds_anchors text t :
  t ∈ Sample.html_tags (Sample.bleach_linkify text) ->
  t = "a" \/ t ∈ Sample.html_tags text.
Proof. intros H. right. exact H. Qed.

Lemma body_html_sanitized_witness :
  comments.body_html
    (Comment.assign_body Sample.markdown Sample.bleach_clean
       Sample.bleach_linkify Sample.comment1 "Hello")
  = Some "<p>Hello</p>"
  /\ forall t, t ∈ Sample.html_tags "<p>Hello</p>" -> t ∈ Comment.allowed_tags.
Proof.
  pose proof (body_html_sanitized
                Sample.markdown Sample.bleach_clean Sample.bleach_linkify
                Sample.html_tags sample_clean_leaves_allowed
                sample_linkify_adds_anchors Sample.comment1 "Hello")
    as (_ & Hhtml & Htags).
  split; [exact Hhtml |].
  intros t Ht. exact (Htags _ t Hhtml Ht).
Defined.

(* ===================================================================== *)
(** ** Signed, dated tokens *)
(* ===================================================================== *)

Section Serializer.
Variable mac : string -> itsdangerous.header -> itsdangerous.payload -> string.

(** [loads] accepts exactly the tokens whose signature verifies and whose
    expiry date is present, positive and not in the past. *)
Lemma loads_Ok_iff (s : itsdangerous.Serializer) (now : Z)
    (t : itsdangerous.token) (p : itsdangerous.payload) :
  itsdangerous.loads mac s now t = Py.Ok p
  <-> itsdangerous.signature_ok mac (itsdangerous.secret_key s) t = true
      /\ itsdangerous.payload_of t = Some p
      /\ exists e, itsdangerous.expiry t = Some e /\ (0 < e)%Z /\ (now <= e)%Z.
Proof.
  destruct t as [h q sig | text]; simpl.
  - destruct (String.eqb sig _) eqn:Hsig; simpl.
    + destruct (itsdangerous.exp h) as [e|] eqn:He.
      * destruct (Z.ltb_spec 0 e) as [Hpos|Hpos]; simpl.
        -- destruct (Z.ltb_spec e now) as [Hexp|Hexp].
           ++ split; [discriminate |].
              intros (_ & _ & e' & [= <-] & _ & Hle). lia.
           ++ split.
              ** intros [= ->]. split; [done |]. split; [done |].
                 exists e. split; [done | lia].
              ** intros (_ & [= ->] & _). done.
        -- split; [discriminate |].
           intros (_ & _ & e' & [= <-] & Hlt & _). lia.
      * split; [discriminate |]. intros (_ & _ & e' & [=] & _).
    + split; [discriminate | intros [[=] _]].
  - split; [discriminate | intros [[=] _]].
Qed.

(** A token whose signature does not verify is refused. *)
Lemma loads_bad_signature (s : itsdangerous.Serializer) (now : Z)
    (t : itsdangerous.token) :
  itsdangerous.signature_ok mac (itsdangerous.secret_key s) t = false ->
  exists e, itsdangerous.loads mac s now t = Py.Raise e.
Proof.
  intros Hsig. destruct (itsdangerous.loads mac s now t) as [p|e] eqn:Hl.
  - apply loads_Ok_iff in Hl as [Hok _]. congruence.
  - eauto.
Qed.

(** An expired token is refused. *)
Lemma loads_expired (s : itsdangerous.Serializer) (now : Z)
    (t : itsdangerous.token) :
  itsdangerous.expired now t = true ->
  exists e, itsdangerous.loads mac s now t = Py.Raise e.
Proof.
  intros Hexp. destruct (itsdangerous.loads mac s now t) as [p|e] eqn:Hl.
  - apply loads_Ok_iff in Hl as (_ & _ & e & He & _ & Hle).
    unfold itsdangerous.expired in Hexp. rewrite He in Hexp.
    apply Z.ltb_lt in Hexp. lia.
  - eauto.
Qed.

(** Round trip: a serializer with the same key reads back what was dumped,
    up to and including the expiry date, whatever its own [expires_in]. *)
Lemma loads_dumps (s s' : itsdangerous.Serializer) (issued now : Z)
    (obj : itsdangerous.payload) :
  itsdangerous.secret_key s' = itsdangerous.secret_key s ->
  (0 < issued + itsdangerous.expires_in s)%Z ->
  (now <= issued + itsdangerous.expires_in s)%Z ->
  itsdangerous.loads mac s' now (itsdangerous.dumps mac s issued obj)
  = Py.Ok obj.
Proof.
  intros Hkey Hpos Hle. apply loads_Ok_iff. simpl.
  rewrite Hkey, String.eqb_refl. split; [done |]. split; [done |].
  eexists. split; [reflexivity |]. lia.
Qed.

End Serializer.

(* ===================================================================== *)
(** ** API tokens *)
(* ===================================================================== *)

Section ApiTokens.
Variable mac : string -> itsdangerous.header -> itsdangerous.payload -> string.
Variable SECRET_KEY : string.

(** What [validate_api_token] returns, case by case. *)
Lemma validate_api_token_Some (db : DB.t) (now : Z)
    (token : itsdangerous.token) (u : users.row) :
  User.validate_api_token mac SECRET_KEY db now token = Some u
  <-> exists p i,
        itsdangerous.loads mac
          (itsdangerous.mkSerializer SECRET_KEY itsdangerous.DEFAULT_EXPIRES_IN)
          now token = Py.Ok p
        /\ itsdangerous.user p = Some i /\ i <> 0%Z
        /\ Query.get users.id (DB.users db) (Some i) = Some u.
Proof.
  unfold User.validate_api_token.
  destruct (itsdangerous.loads _ _ _ _) as [p|e]; simpl.
  - destruct (itsdangerous.user p) as [i|] eqn:Hu; simpl.
    + destruct (Z.eqb_spec i 0) as [->|Hi]; simpl.
      * split; [discriminate |].
        intros (q & j & [= <-] & Hj & Hne & _).
        rewrite Hu in Hj. injection Hj as <-. done.
      * split.
        -- intros Hg. exists p, i. done.
        -- intros (q & j & [= <-] & Hj & _ & Hg).
           rewrite Hu in Hj. injection Hj as <-. done.
    + split; [discriminate |].
      intros (q & j & [= <-] & Hj & _). rewrite Hu in Hj. discriminate.
  - split; [discriminate |]. intros (q & j & [=] & _).
Qed.

(** C3, as amended.  A user stored under a non-zero primary key gets
    back from [validate_api_token] for the token [get_api_token] issued
    to it, up to the expiry date; and a token whose signature does not
    verify under [SECRET_KEY], or whose expiry date has passed, yields
    [None]. *)
Theorem api_token_spec (db : DB.t) (now : Z) :
  (forall u i issued e,
      users.id u = Some i -> i <> 0%Z ->
      Query.get users.id (DB.users db) (Some i) = Some u ->
      (0 <= issued)%Z -> (0 < e)%Z -> (now <= issued + e)%Z ->
      User.validate_api_token mac SECRET_KEY db now
        (User.get_api_token mac SECRET_KEY u issued e) = Some u)
  /\ (forall token,
        itsdangerous.signature_ok mac SECRET_KEY token = false
        \/ itsdangerous.expired now token = true ->
        User.validate_api_token mac SECRET_KEY db now token = None).
Proof.
  split.
  - intros u i issued e Hid Hi Hget Hissued He Hnow.
    apply validate_api_token_Some.
    exists (itsdangerous.Payload (users.id u) None None), i.
    split; [|by rewrite Hid].
    unfold User.get_api_token. apply loads_dumps; simpl; [done | lia | lia].
  - intros token Hbad. unfold User.validate_api_token.
    set (s := itsdangerous.mkSerializer SECRET_KEY _).
    assert (exists e, itsdangerous.loads mac s now token = Py.Raise e)
      as [e ->]; [|done].
    destruct Hbad as [Hsig | Hexp].
    + by apply loads_bad_signature.
    + by apply loads_expired.
Qed.

End ApiTokens.

Lemma api_token_spec_witness :
  User.validate_api_token Sample.mac Sample.SECRET_KEY Sample.db 1400001200
    (User.get_api_token Sample.mac Sample.SECRET_KEY Sample.alice
       1400001000 300)
  = Some Sample.alice
  /\ User.validate_api_token Sample.mac Sample.SECRET_KEY Sample.db 1400001301
       (User.get_api_token Sample.mac Sample.SECRET_KEY Sample.alice
          1400001000 300)
     = None.
Proof.
  split.
  - apply (proj1 (api_token_spec Sample.mac Sample.SECRET_KEY Sample.db
                    1400001200) Sample.alice 1%Z 1400001000%Z 300%Z);
      [reflexivity | lia | reflexivity | lia | lia | lia].
  - apply (proj2 (api_token_spec Sample.mac Sample.SECRET_KEY Sample.db
                    1400001301)).
    right. reflexivity.
Defined.

(** C3, as stated, fails for a user whose primary key is falsy: [zero] is
    stored under the key 0, its token is well signed and not expired, and
    [validate_api_token] returns [None] instead of the user.  (A user not
    yet flushed, whose [id] is [None], fares the same.) *)
Lemma api_token_zero_id_counterexample :
  let token :=
    User.get_api_token Sample.mac Sample.SECRET_KEY Sample.zero
      1400001000 300 in
  Query.get users.id (DB.users Sample.db0) (users.id Sample.zero)
  = Some Sample.zero
  /\ itsdangerous.signature_ok Sample.mac Sample.SECRET_KEY token = true
  /\ itsdangerous.expired 1400001200 token = false
  /\ User.validate_api_token Sample.mac Sample.SECRET_KEY Sample.db0
       1400001200 token = None
  /\ User.validate_api_token Sample.mac Sample.SECRET_KEY Sample.db0
       1400001200 token <> Some Sample.zero.
Proof. vm_compute. repeat split. discriminate. Qed.

(* ===================================================================== *)
(** ** Unsubscribing *)
(* ===================================================================== *)

Section Unsubscribe.
Variable mac : string -> itsdangerous.header -> itsdangerous.payload -> string.
Variable SECRET_KEY : string.

(** The update of [unsubscribe_user], read comment by comment: the
    comment at each position is kept, with [notify] cleared exactly when
    it belongs to the talk and carries the address. *)
Lemma update_notify_lookup (cs : list comments.row) (i : Z) (addr : string)
    (k : nat) (c : comments.row) :
  cs !! k = Some c ->
  Query.update
    (fun c => Query.sql_eq (comments.talk_id c) (Some i)
              && Query.col_eq (comments.author_email c) (Some addr))
    (comments.set_notify (Some false)) cs !! k
  = Some (if decide (comments.talk_id c = Some i
                     /\ comments.author_email c = Some addr)
          then comments.set_notify (Some false) c else c).
Proof.
  intros Hk. unfold Query.update.
  change (map ?f cs) with (f <$> cs). rewrite list_lookup_fmap, Hk. simpl.
  f_equal. destruct (decide _) as [[Ht He] | Hn].
  - rewrite Ht, He. unfold Query.sql_eq, Query.col_eq.
    by rewrite !bool_decide_eq_true_2.
  - destruct (Query.sql_eq _ _ && Query.col_eq _ _) eqn:Hsel; [|done].
    apply andb_true_iff in Hsel as [Ht He].
    apply sql_eq_true in Ht as (x & Hx & [= <-]).
    apply col_eq_true in He. exfalso. by apply Hn.
Qed.

(** C2, as amended.  [unsubscribe_user] returns [(None, None)] and
    leaves the database as it is when the signature does not verify, when
    the expiry date has passed or is missing, when the payload's talk id
    or email is absent or falsy ([None], [0], the empty text), or when no
    talk has the payload's id.  In every other case it returns the talk
    and the email, clears [notify] on exactly the comments of that talk
    whose [author_email] is the email, and changes nothing else. *)
Theorem unsubscribe_user_spec (db : DB.t) (now : Z)
    (token : itsdangerous.token) :
  let r := Talk.unsubscribe_user mac SECRET_KEY db now token in
  (itsdangerous.signature_ok mac SECRET_KEY token = false
   \/ itsdangerous.expired now token = true
   \/ (forall e, itsdangerous.expiry token = Some e -> (e <= 0)%Z)
   \/ (exists p,
         itsdangerous.payload_of token = Some p
         /\ (Py.truthy_int (itsdangerous.talk p) = false
             \/ Py.truthy_str (itsdangerous.email p) = false
             \/ Query.get talks.id (DB.talks db) (itsdangerous.talk p) = None))
   -> r = ((None, None), db))
  /\ (forall p e i addr talk,
        itsdangerous.signature_ok mac SECRET_KEY token = true ->
        itsdangerous.payload_of token = Some p ->
        itsdangerous.expiry token = Some e -> (0 < e)%Z -> (now <= e)%Z ->
        itsdangerous.talk p = Some i -> i <> 0%Z ->
        itsdangerous.email p = Some addr -> addr <> "" ->
        Query.get talks.id (DB.talks db) (Some i) = Some talk ->
        fst r = (Some talk, Some addr)
        /\ DB.users (snd r) = DB.users db
        /\ DB.talks (snd r) = DB.talks db
        /\ DB.pending_emails (snd r) = DB.pending_emails db
        /\ length (DB.comments (snd r)) = length (DB.comments db)
        /\ forall k c,
             DB.comments db !! k = Some c ->
             DB.comments (snd r) !! k
             = Some (if decide (comments.talk_id c = talks.id talk
                                /\ comments.author_email c = Some addr)
                     then comments.set_notify (Some false) c else c)).
Proof.
  simpl. unfold Talk.unsubscribe_user.
  set (s := itsdangerous.mkSerializer SECRET_KEY _).
  split.
  - intros Hrej.
    destruct (itsdangerous.loads mac s now token) as [p|err] eqn:Hl; [|done].
    simpl. apply loads_Ok_iff in Hl as (Hsig & Hp & e & He & Hpos & Hle).
    simpl in Hsig.
    destruct Hrej as [Hbad | [Hexp | [Hdate | (q & Hq & Hfalsy)]]].
    + congruence.
    + unfold itsdangerous.expired in Hexp. rewrite He in Hexp.
      apply Z.ltb_lt in Hexp. lia.
    + specialize (Hdate e He). lia.
    + rewrite Hp in Hq. injection Hq as <-.
      destruct Hfalsy as [Ht | [Hm | Hg]].
      * by rewrite Ht.
      * rewrite Hm. by rewrite orb_true_r.
      * rewrite Hg. by destruct (negb _ || negb _).
  - intros p e i addr talk Hsig Hp He Hpos Hle Hi Hne Haddr Hne' Hget.
    assert (itsdangerous.loads mac s now token = Py.Ok p) as ->.
    { apply loads_Ok_iff. simpl. eauto 10. }
    simpl. rewrite Hi, Haddr. simpl.
    destruct (Z.eqb_spec i 0) as [|_]; [done |].
    destruct (String.eqb_spec addr "") as [|_]; [done |].
    simpl. rewrite Hget. simpl.
    pose proof (get_Some talks.id (DB.talks db) (Some i) talk Hget)
      as [_ (i' & [= <-] & Hid)].
    rewrite Hid.
    split; [done |]. split; [done |]. split; [done |]. split; [done |].
    split.
    + unfold Query.update. apply length_map.
    + intros k c Hk. by apply update_notify_lookup.
Qed.

End Unsubscribe.

Lemma unsubscribe_user_spec_witness :
  let token :=
    Talk.get_unsubscribe_token Sample.mac Sample.SECRET_KEY Sample.talk1
      1400001000 (Some "carol@example.com") 604800 in
  let r :=
    Talk.unsubscribe_user Sample.mac Sample.SECRET_KEY Sample.db
      1400002000 token in
  fst r = (Some Sample.talk1, Some "carol@example.com")
  /\ DB.comments (snd r) !! 1%nat
     = Some (comments.set_notify (Some false) Sample.comment2)
  /\ DB.comments (snd r) !! 0%nat = Some Sample.comment1.
Proof.
  pose proof (proj2 (unsubscribe_user_spec Sample.mac Sample.SECRET_KEY
                       Sample.db 1400002000
                       (Talk.get_unsubscribe_token Sample.mac
                          Sample.SECRET_KEY Sample.talk1 1400001000
                          (Some "carol@example.com") 604800))
                _ 1400605800%Z 1%Z "carol@example.com" Sample.talk1
                ltac:(vm_compute; reflexivity) eq_refl eq_refl
                ltac:(lia) ltac:(lia) eq_refl ltac:(lia) eq_refl
                ltac:(discriminate) eq_refl)
    as (Hret & _ & _ & _ & _ & Hcs).
  split; [exact Hret |]. split.
  - exact (Hcs 1%nat Sample.comment2 eq_refl).
  - exact (Hcs 0%nat Sample.comment1 eq_refl).
Defined.

(** C2, as stated, fails for a payload that has an email, the empty
    text: the token is well signed and not expired, its payload carries
    the id of a stored talk and an email, and still the call returns
    [(None, None)] rather than the talk and the email. *)
Lemma unsubscribe_empty_email_counterexample :
  let token :=
    Talk.get_unsubscribe_token Sample.mac Sample.SECRET_KEY Sample.talk1
      1400001000 (Some "") 604800 in
  itsdangerous.signature_ok Sample.mac Sample.SECRET_KEY token = true
  /\ itsdangerous.expired 1400002000 token = false
  /\ (itsdangerous.talk <$> itsdangerous.payload_of token) = Some (Some 1%Z)
  /\ (itsdangerous.email <$> itsdangerous.payload_of token) = Some (Some "")
  /\ Query.get talks.id (DB.talks Sample.db) (Some 1%Z) = Some Sample.talk1
  /\ fst (Talk.unsubscribe_user Sample.mac Sample.SECRET_KEY Sample.db
            1400002000 token) = (None, None)
  /\ fst (Talk.unsubscribe_user Sample.mac Sample.SECRET_KEY Sample.db
            1400002000 token) <> (Some Sample.talk1, Some "").
Proof. vm_compute. repeat split. discriminate. Qed.

(* ===================================================================== *)
(** ** Avatars *)
(* ===================================================================== *)

(** The hash [gravatar] puts in the URL: the stored [avatar_hash] when it
    is a non-empty text, the MD5 of the email otherwise. *)
Lemma gravatar_hash (is_secure : bool) (u : users.row) (size : Z)
    (default rating e : string) :
  users.email u = Some e ->
  User.gravatar is_secure u size default rating
  = Py.Ok ((if is_secure then "https://secure.gravatar.com/avatar"
            else "http://www.gravatar.com/avatar")
           ++ "/"
           ++ (match users.avatar_hash u with
               | Some h => if String.eqb h "" then
                             hashlib.md5_hexdigest (Py.encode_utf8 e)
                           else h
               | None => hashlib.md5_hexdigest (Py.encode_utf8 e)
               end)
           ++ "?s=" ++ Py.str_of_int size ++ "&d=" ++ default
           ++ "&r=" ++ rating)%string.
Proof.
  intros He. unfold User.gravatar, User.email_md5. rewrite He.
  destruct (users.avatar_hash u) as [h|]; simpl; [|done].
  by destruct (String.eqb h "").
Qed.

(** C6, as amended.  A user constructed with an email and no
    [avatar_hash] gets the MD5 hex digest of the UTF-8 encoded email as
    [avatar_hash], and [gravatar] builds its URL from that digest; an
    [avatar_hash] passed to the constructor is kept as given; the
    constructor writes no other attribute. *)
Theorem avatar_hash_spec (kwargs : users.row) :
  let u := User.__init__ kwargs in
  (forall e,
      users.email kwargs = Some e -> users.avatar_hash kwargs = None ->
      users.avatar_hash u
      = Some (hashlib.md5_hexdigest (Py.encode_utf8 e))
      /\ forall is_secure size default rating,
           User.gravatar is_secure u size default rating
           = Py.Ok ((if is_secure then "https://secure.gravatar.com/avatar"
                     else "http://www.gravatar.com/avatar")
                    ++ "/" ++ hashlib.md5_hexdigest (Py.encode_utf8 e)
                    ++ "?s=" ++ Py.str_of_int size ++ "&d=" ++ default
                    ++ "&r=" ++ rating)%string)
  /\ (forall h, users.avatar_hash kwargs = Some h -> u = kwargs)
  /\ (users.email kwargs = None -> u = kwargs)
  /\ users.set_avatar_hash (users.avatar_hash kwargs) u = kwargs.
Proof.
  simpl. unfold User.__init__. split; [|split; [|split]].
  - intros e He Hh. rewrite He, Hh. split; [done |].
    intros is_secure size default rating.
    rewrite (gravatar_hash _ _ _ _ _ e); [|by destruct kwargs].
    simpl.
    destruct (String.eqb (hashlib.md5_hexdigest (Py.encode_utf8 e)) "");
      reflexivity.
  - intros h Hh. rewrite Hh. by destruct (users.email kwargs).
  - intros He. by rewrite He.
  - destruct kwargs as [? [e|] ? ? ? ? ? ? ? [h|]]; reflexivity.
Qed.

Lemma avatar_hash_spec_witness :
  users.avatar_hash (User.__init__ Sample.john_kwargs)
  = Some "d4c74594d841139328695756648b6bd6"
  /\ User.gravatar false (User.__init__ Sample.john_kwargs) 100 "identicon" "g"
     = Py.Ok "http://www.gravatar.com/avatar/d4c74594d841139328695756648b6bd6?s=100&d=identicon&r=g".
Proof.
  pose proof (proj1 (avatar_hash_spec Sample.john_kwargs)
                "john@example.com" eq_refl eq_refl) as [Hh Hg].
  split.
  - rewrite Hh. vm_compute. reflexivity.
  - rewrite (Hg false 100%Z "identicon" "g"). vm_compute. reflexivity.
Defined.

(** C6, as stated, fails for a user constructed with an [avatar_hash] of
    its own: the email is set, and [avatar_hash] is the text passed in,
    not the digest of the email; [gravatar] then builds its URL from the
    text passed in. *)
Lemma avatar_hash_supplied_counterexample :
  let u := User.__init__ Sample.john_custom_kwargs in
  users.email u = Some "john@example.com"
  /\ hashlib.md5_hexdigest (Py.encode_utf8 "john@example.com")
     = "d4c74594d841139328695756648b6bd6"
  /\ users.avatar_hash u = Some "0"
  /\ users.avatar_hash u
     <> Some (hashlib.md5_hexdigest (Py.encode_utf8 "john@example.com"))
  /\ User.gravatar false u 100 "identicon" "g"
     = Py.Ok "http://www.gravatar.com/avatar/0?s=100&d=identicon&r=g".
Proof. vm_compute. repeat split. discriminate. Qed.

(* ===================================================================== *)
(** ** Unique, required identifiers *)
(* ===================================================================== *)

(** Two stored values at different positions of a clash-free list differ. *)
Lemma no_clash_lookup (vs : list (option Column.value)) (i j : nat)
    (x y : Column.value) :
  Engine.no_clash vs = true -> i <> j ->
  vs !! i = Some (Some x) -> vs !! j = Some (Some y) -> x <> y.
Proof.
  revert i j. induction vs as [|v vs IH]; intros i j Hok Hij Hi Hj.
  - inversion Hi.
  - simpl in Hok. apply andb_true_iff in Hok as [Hhead Htail].
    assert (forall k z, v = Some z -> vs !! k = Some (Some z) -> False)
      as Hfresh.
    { intros k z -> Hk. apply negb_true_iff in Hhead.
      assert (existsb (fun w => bool_decide (w = Some z)) vs = true) as Hex.
      { apply existsb_exists. exists (Some z). split.
        - apply list_elem_of_In. by apply list_elem_of_lookup_2 with k.
        - by apply bool_decide_eq_true_2. }
      congruence. }
    destruct i as [|i], j as [|j]; simpl in Hi, Hj.
    + done.
    + injection Hi as ->. intros ->. by apply (Hfresh j y).
    + injection Hj as ->. intros ->. by apply (Hfresh i y).
    + apply (IH i j); [done | lia | done | done].
Qed.

Lemma cell_email (u : users.row) :
  users.cell u "email" = Column.VStr <$> users.email u.
Proof. reflexivity. Qed.

Lemma cell_username (u : users.row) :
  users.cell u "username" = Column.VStr <$> users.username u.
Proof. reflexivity. Qed.

(** A column that passed the uniqueness check holds different texts in
    different rows. *)
Lemma no_clash_column (rows : list users.row) (col : string)
    (field : users.row -> option string) (i j : nat) (u v : users.row) :
  (forall r, users.cell r col = Column.VStr <$> field r) ->
  Engine.no_clash (map (fun r => users.cell r col) rows) = true ->
  i <> j -> rows !! i = Some u -> rows !! j = Some v ->
  is_Some (field u) -> is_Some (field v) -> field u <> field v.
Proof.
  intros Hcell Hok Hij Hi Hj [x Hx] [y Hy].
  pose proof (no_clash_lookup _ i j (Column.VStr x) (Column.VStr y) Hok Hij)
    as Hne.
  change (map ?f rows) with (f <$> rows) in Hne.
  rewrite !list_lookup_fmap, Hi, Hj in Hne. simpl in Hne.
  rewrite !Hcell, Hx, Hy in Hne. rewrite Hx, Hy.
  intros [= ->]. by apply Hne.
Qed.

(** What the declarations of [email] and [username] make the database
    check on every commit. *)
Lemma users_constraints_spec (rows : list users.row) :
  Engine.constraints_ok users.cell users.columns rows = true ->
  (forall u, u ∈ rows ->
             is_Some (users.email u) /\ is_Some (users.username u))
  /\ (forall i j u v,
        i <> j -> rows !! i = Some u -> rows !! j = Some v ->
        users.email u <> users.email v
        /\ users.username u <> users.username v).
Proof.
  unfold Engine.constraints_ok, Engine.not_null_ok, Engine.unique_ok.
  intros Hok. apply andb_true_iff in Hok as [Hnull Huniq].
  simpl in Hnull, Huniq.
  apply andb_true_iff in Hnull as [_ Hnull].
  apply andb_true_iff in Hnull as [Hemail Hnull].
  apply andb_true_iff in Hnull as [Hname _].
  apply andb_true_iff in Huniq as [_ Huniq].
  apply andb_true_iff in Huniq as [Huemail Huniq].
  apply andb_true_iff in Huniq as [Huname _].
  rewrite forallb_forall in Hemail, Hname.
  assert (forall u, u ∈ rows ->
                    is_Some (users.email u) /\ is_Some (users.username u))
    as Hrequired.
  { intros u Hu. apply list_elem_of_In in Hu.
    specialize (Hemail u Hu). specialize (Hname u Hu).
    rewrite cell_email in Hemail. rewrite cell_username in Hname.
    split.
    - destruct (users.email u); [eauto | discriminate].
    - destruct (users.username u); [eauto | discriminate]. }
  split; [exact Hrequired |].
  intros i j u v Hij Hi Hj.
  destruct (Hrequired u) as [Heu Hnu];
    [by apply list_elem_of_lookup_2 with i |].
  destruct (Hrequired v) as [Hev Hnv];
    [by apply list_elem_of_lookup_2 with j |].
  split.
  - by apply (no_clash_column rows "email" users.email i j u v cell_email).
  - by apply (no_clash_column rows "username" users.username i j u v
                cell_username).
Qed.

(** Every state the database goes through satisfies the declared
    constraints of [users]. *)
Lemma reachable_constraints (db : DB.t) :
  Engine.reachable db ->
  Engine.constraints_ok users.cell users.columns (DB.users db) = true.
Proof.
  induction 1 as [| db ch db' _ IH Hcommit | db db' _ IH Hsame].
  - reflexivity.
  - unfold Engine.commit in Hcommit.
    destruct (Engine.constraints_ok _ _ _) eqn:Hok; [|discriminate].
    injection Hcommit as <-. exact Hok.
  - by rewrite Hsame.
Qed.

(** C8. In every state of the database, each user row has an email and
    a username, and two distinct user rows differ in both. *)
Theorem users_email_username_unique (db : DB.t) :
  Engine.reachable db ->
  (forall u, u ∈ DB.users db ->
             is_Some (users.email u) /\ is_Some (users.username u))
  /\ (forall i j u v,
        i <> j -> DB.users db !! i = Some u -> DB.users db !! j = Some v ->
        users.email u <> users.email v
        /\ users.username u <> users.username v).
Proof.
  intros Hreach. apply users_constraints_spec.
  by apply reachable_constraints.
Qed.

(** The sample database is a state the database can be in: its two users
    were inserted one after the other. *)
Lemma sample_db_reachable : Engine.reachable Sample.db.
Proof.
  apply Engine.reach_other with (DB.mk [Sample.alice; Sample.bob] [] [] []);
    [|reflexivity].
  apply Engine.reach_commit
    with (DB.mk [Sample.alice] [] [] []) (Engine.Insert Sample.bob);
    [|reflexivity].
  apply Engine.reach_commit with DB.empty (Engine.Insert Sample.alice);
    [|reflexivity].
  apply Engine.reach_empty.
Qed.

Lemma users_email_username_unique_witness :
  users.email Sample.alice <> users.email Sample.bob
  /\ users.username Sample.alice <> users.username Sample.bob.
Proof.
  exact (proj2 (users_email_username_unique Sample.db sample_db_reachable)
           0%nat 1%nat Sample.alice Sample.bob ltac:(discriminate)
           eq_refl eq_refl).
Defined.

(** A second user with Alice's email, or with no username, is refused. *)
Example commit_duplicate_email :
  Engine.commit Sample.db
    (Engine.Insert
       (users.Row None (Some "alice@example.com") (Some "alice2") None None
                  None None None None None))
  = Py.Raise (Py.IntegrityError "constraint failed").
Proof. reflexivity. Qed.

Example commit_missing_username :
  Engine.commit Sample.db
    (Engine.Insert
       (users.Row None (Some "carol@example.com") None None None None None
                  None None None))
  = Py.Raise (Py.IntegrityError "constraint failed").
Proof. reflexivity. Qed.

Example commit_new_user :
  Engine.commit Sample.db
    (Engine.Insert
       (users.Row None (Some "carol@example.com") (Some "carol") None None
                  None None None None None))
  = Py.Ok (DB.with_users
             [Sample.alice; Sample.bob;
              users.Row (Some 3%Z) (Some "carol@example.com") (Some "carol")
                        None None None None None None None]
             Sample.db).
Proof. reflexivity. Qed.

(* ===================================================================== *)
(** ** Notification lists *)
(* ===================================================================== *)

(** The comments of a talk point back to that talk. *)
Lemma talk_comments_talk (db : DB.t) (self : comments.row)
    (talk : talks.row) (m : comments.row) :
  Rel.comment_talk db self = Some talk ->
  m ∈ Rel.talk_comments db talk ->
  Rel.comment_talk db m = Some talk.
Proof.
  unfold Rel.comment_talk, Rel.talk_comments. intros Hself Hm.
  apply elem_of_filter_bool in Hm as [_ Hm].
  apply sql_eq_true in Hm as (i & Hmi & Hti).
  pose proof (get_Some _ _ _ _ Hself) as [_ (i0 & Hsi & Hti0)].
  assert (i0 = i) as -> by congruence.
  rewrite Hmi. by rewrite Hsi in Hself.
Qed.

(** A comment contributes at most one entry. *)
Lemma contributes_functional db self talk m k v k' v' :
  contributes db self talk m k v -> contributes db self talk m k' v' ->
  k = k' /\ v = v'.
Proof.
  intros (_ & _ & H1) (_ & _ & H2).
  destruct H1 as [(a & Ha & _ & -> & ->) | (Hn & _ & -> & ->)],
           H2 as [(b & Hb & _ & -> & ->) | (Hn' & _ & -> & ->)];
    try congruence; try done.
  rewrite Ha in Hb. by injection Hb as <-.
Qed.

(** One turn of the loop: the comment's entry is written when it
    contributes one, and the dictionary is left alone otherwise. *)
Lemma notification_step_spec (db : DB.t) (self : comments.row)
    (talk : talks.row) (result : gmap (option string) (option string))
    (m : comments.row) :
  Rel.comment_talk db m = Some talk ->
  (exists k v,
      contributes db self talk m k v
      /\ Comment.notification_step db self result m
         = Py.Ok (<[k := v]> result))
  \/ ((forall k v, ~ contributes db self talk m k v)
      /\ Comment.notification_step db self result m = Py.Ok result).
Proof.
  intros Htalk. unfold Comment.notification_step, Rel.same_object.
  destruct (Py.truthy_bool (comments.notify m)) eqn:Hnotify; simpl;
    [|right; split; [intros k v (Hn & _); congruence | done]].
  rewrite Htalk.
  destruct (decide (Rel.comment_author db m = Rel.talk_author db talk))
    as [Hta | Hta].
  { rewrite bool_decide_eq_true_2 by done. simpl.
    right. split; [intros k v (_ & Hne & _); done | done]. }
  rewrite bool_decide_eq_false_2 by done. simpl.
  destruct (Rel.comment_author db m) as [a|] eqn:Ha.
  - destruct (decide (Rel.comment_author db self = Some a)) as [Hsa | Hsa].
    + rewrite bool_decide_eq_true_2 by done. simpl. right.
      split; [|done].
      intros k v (_ & _ & [(b & Hb & Hne & _) | (Hn & _)]).
      * rewrite Ha in Hb. injection Hb as <-. done.
      * rewrite Ha in Hn. discriminate.
    + rewrite bool_decide_eq_false_2 by done. simpl. left.
      exists (users.email a),
             (Py.or_str (users.name a) (users.username a)).
      split; [|done]. split; [done |]. split; [by rewrite Ha |].
      left. exists a. done.
  - destruct (decide (comments.author_email self = comments.author_email m))
      as [Hse | Hse].
    + rewrite bool_decide_eq_true_2 by done. simpl. right.
      split; [|done].
      intros k v (_ & _ & [(b & Hb & _) | (_ & Hne & _)]).
      * rewrite Ha in Hb. discriminate.
      * done.
    + rewrite bool_decide_eq_false_2 by done. simpl. left.
      exists (comments.author_email m), (comments.author_name m).
      split; [|done]. split; [done |]. split; [by rewrite Ha |].
      right. done.
Qed.

(** The loop never raises on the comments of the talk, and the dictionary
    it leaves holds the entries it started with and those contributed,
    a later entry replacing an earlier one under the same key. *)
Lemma notification_loop_spec (db : DB.t) (self : comments.row)
    (talk : talks.row) (cs : list comments.row) :
  (forall m, m ∈ cs -> Rel.comment_talk db m = Some talk) ->
  forall result : gmap (option string) (option string),
  exists result' : gmap (option string) (option string),
    Comment.notification_loop db self result cs = Py.Ok result'
    /\ (forall k v, result' !! k = Some v ->
                    result !! k = Some v
                    \/ exists m, m ∈ cs /\ contributes db self talk m k v)
    /\ (forall k, is_Some (result !! k) -> is_Some (result' !! k))
    /\ (forall m k v, m ∈ cs -> contributes db self talk m k v ->
                      is_Some (result' !! k)).
Proof.
  induction cs as [|m cs IH]; intros Htalk result; simpl.
  - exists result. split; [done |]. split; [by left |]. split; [done |].
    intros m k v Hm. inversion Hm.
  - assert (forall m', m' ∈ cs -> Rel.comment_talk db m' = Some talk)
      as Htalk' by (intros m' Hm'; apply Htalk; by right).
    destruct (notification_step_spec db self talk result m)
      as [(k0 & v0 & Hc & ->) | (Hnc & ->)]; [apply Htalk; by left | |];
      simpl.
    + destruct (IH Htalk' (<[k0 := v0]> result))
        as (result' & Hloop & Hfrom & Hmono & Hall).
      exists result'. split; [done |]. split; [|split].
      * intros k v Hk. destruct (Hfrom k v Hk) as [Hin | (m' & Hm' & Hc')].
        -- apply lookup_insert_Some in Hin as [[<- <-] | [_ Hin]].
           ++ right. exists m. split; [by left | done].
           ++ by left.
        -- right. exists m'. split; [by right | done].
      * intros k Hk. apply Hmono.
        destruct (decide (k0 = k)) as [<- | Hne].
        -- rewrite lookup_insert_eq. eauto.
        -- by rewrite lookup_insert_ne.
      * intros m' k v Hm' Hc'. apply elem_of_cons in Hm' as [-> | Hm'].
        -- destruct (contributes_functional _ _ _ _ _ _ _ _ Hc Hc')
             as [<- <-].
           apply Hmono. rewrite lookup_insert_eq. eauto.
        -- by apply (Hall m' k v).
    + destruct (IH Htalk' result) as (result' & Hloop & Hfrom & Hmono & Hall).
      exists result'. split; [done |]. split; [|split].
      * intros k v Hk. destruct (Hfrom k v Hk) as [Hin | (m' & Hm' & Hc')].
        -- by left.
        -- right. exists m'. split; [by right | done].
      * done.
      * intros m' k v Hm' Hc'. apply elem_of_cons in Hm' as [-> | Hm'].
        -- by destruct (Hnc k v).
        -- by apply (Hall m' k v).
Qed.

(** C9, as amended.  For a comment with a talk, [notification_list]
    returns a list with at most one entry per address, whose entries are
    exactly those contributed by the comments of the talk: a comment
    contributes when its [notify] flag is true, it is not by the talk's
    author, and it is either by a registered author other (by identity)
    than the author of the comment at hand, or anonymous with an
    [author_email] other than that of the comment at hand.  So a comment
    that does not ask for mail, a comment by the talk's author, and a
    comment by the same registered author or under the same anonymous
    address contribute nothing.  Without a talk the call raises. *)
Theorem notification_list_spec (db : DB.t) (self : comments.row) :
  match Rel.comment_talk db self with
  | Some talk =>
      exists items,
        Comment.notification_list db self = Py.Ok items
        /\ NoDup items.*1
        /\ (forall k v,
              (k, v) ∈ items ->
              exists m, m ∈ Rel.talk_comments db talk
                        /\ contributes db self talk m k v)
        /\ (forall m k v,
              m ∈ Rel.talk_comments db talk ->
              contributes db self talk m k v -> k ∈ items.*1)
  | None =>
      exists e, Comment.notification_list db self = Py.Raise e
  end.
Proof.
  unfold Comment.notification_list.
  destruct (Rel.comment_talk db self) as [talk|] eqn:Htalk; [|eauto].
  destruct (notification_loop_spec db self talk (Rel.talk_comments db talk)
              (fun m Hm => talk_comments_talk db self talk m Htalk Hm) ∅)
    as (result & -> & Hfrom & _ & Hall).
  simpl. exists (map_to_list result). split; [done |].
  split; [apply NoDup_fst_map_to_list |]. split.
  - intros k v Hkv. apply elem_of_map_to_list in Hkv.
    destruct (Hfrom k v Hkv) as [Hempty | Hm]; [|done].
    by rewrite lookup_empty in Hempty.
  - intros m k v Hm Hc. destruct (Hall m k v Hm Hc) as [v' Hv'].
    apply list_elem_of_fmap. exists (k, v'). split; [done |].
    by apply elem_of_map_to_list.
Qed.

(** Bob's logged-in comment on Alice's talk contributes his address to
    the list of Alice's own comment; Dave's, which asks for no mail,
    contributes nothing. *)
Lemma sample_contributes :
  contributes Sample.db Sample.comment3 Sample.talk1 Sample.comment1
    (Some "bob@example.com") (Some "bob")
  /\ (forall k v, ~ contributes Sample.db Sample.comment3 Sample.talk1
                    Sample.comment4 k v).
Proof.
  split.
  - split; [reflexivity |]. split; [discriminate |].
    left. exists Sample.bob. split; [reflexivity |].
    split; [discriminate |]. split; reflexivity.
  - intros k v (Hnotify & _). discriminate.
Qed.

Lemma notification_list_spec_witness :
  exists items,
    Comment.notification_list Sample.db Sample.comment3 = Py.Ok items
    /\ NoDup items.*1
    /\ Some "bob@example.com" ∈ items.*1.
Proof.
  pose proof (notification_list_spec Sample.db Sample.comment3) as Hspec.
  change (Rel.comment_talk Sample.db Sample.comment3)
    with (Some Sample.talk1) in Hspec.
  destruct Hspec as (items & Hitems & Hnodup & _ & Hall).
  exists items. split; [exact Hitems |]. split; [exact Hnodup |].
  apply (Hall Sample.comment1 _ (Some "bob")).
  - apply elem_of_filter_bool. split; [|reflexivity].
    apply list_elem_of_In. simpl. tauto.
  - exact (proj1 sample_contributes).
Defined.

Example notification_list_sample :
  Comment.notification_list Sample.db Sample.comment3
  = Py.Ok [(Some "bob@example.com", Some "bob");
           (Some "carol@example.com", Some "Carol")].
Proof. vm_compute. reflexivity. Qed.

(** C9, as stated, fails where one person appears once as a registered
    author and once under an anonymous address: Bob's comment, written
    logged in, gets a list that holds Bob's own email, contributed by the
    anonymous comment signed with that address. *)
Lemma notification_list_own_email_counterexample :
  users.email <$> Rel.comment_author Sample.db_cross Sample.comment1
  = Some (Some "bob@example.com")
  /\ Comment.notification_list Sample.db_cross Sample.comment1
     = Py.Ok [(Some "bob@example.com", Some "Bob");
              (Some "carol@example.com", Some "Carol")].
Proof. vm_compute. split; reflexivity. Qed.

(* ===================================================================== *)
(** ** Further properties of the unsubscribe flow and the mail queue *)
(* ===================================================================== *)

(** Clearing [notify] on the selected comments a second time changes
    nothing. *)
Lemma update_notify_idempotent (sel : comments.row -> bool)
    (cs : list comments.row) :
  (forall c, sel (comments.set_notify (Some false) c) = sel c) ->
  Query.update sel (comments.set_notify (Some false))
    (Query.update sel (comments.set_notify (Some false)) cs)
  = Query.update sel (comments.set_notify (Some false)) cs.
Proof.
  intros Hsel. unfold Query.update. rewrite map_map.
  apply map_ext. intros c. destruct (sel c) eqn:Hc.
  - by rewrite Hsel, Hc.
  - by rewrite Hc.
Qed.

Section UnsubscribeFlow.
Variable mac : string -> itsdangerous.header -> itsdangerous.payload -> string.
Variable SECRET_KEY : string.

(** The token [get_unsubscribe_token] issues for a stored talk and a
    non-empty address unsubscribes that address from that talk, up to the
    expiry date. *)
Theorem unsubscribe_token_round_trip (db : DB.t) (talk : talks.row) (i : Z)
    (addr : string) (issued e now : Z) :
  talks.id talk = Some i -> i <> 0%Z -> addr <> "" ->
  Query.get talks.id (DB.talks db) (Some i) = Some talk ->
  (0 <= issued)%Z -> (0 < e)%Z -> (now <= issued + e)%Z ->
  fst (Talk.unsubscribe_user mac SECRET_KEY db now
         (Talk.get_unsubscribe_token mac SECRET_KEY talk issued (Some addr) e))
  = (Some talk, Some addr).
Proof.
  intros Hid Hi Haddr Hget Hissued He Hnow.
  unfold Talk.unsubscribe_user, Talk.get_unsubscribe_token.
  rewrite loads_dumps; simpl; [|done | lia | lia].
  rewrite Hid. simpl.
  destruct (Z.eqb_spec i 0) as [|_]; [done |].
  destruct (String.eqb_spec addr "") as [|_]; [done |].
  simpl. change (find _ (DB.talks db))
    with (Query.get talks.id (DB.talks db) (Some i)).
  by rewrite Hget.
Qed.

(** Using the same unsubscribe link twice gives the same answer and
    changes nothing the second time. *)
Theorem unsubscribe_user_idempotent (db : DB.t) (now : Z)
    (token : itsdangerous.token) :
  let r := Talk.unsubscribe_user mac SECRET_KEY db now token in
  Talk.unsubscribe_user mac SECRET_KEY (snd r) now token = r.
Proof.
  simpl. unfold Talk.unsubscribe_user.
  destruct (itsdangerous.loads mac _ now token) as [p|err]; simpl; [|done].
  destruct (negb (Py.truthy_int (itsdangerous.talk p))
            || negb (Py.truthy_str (itsdangerous.email p)));
    simpl; [done |].
  destruct (Query.get talks.id (DB.talks db) (itsdangerous.talk p))
    as [talk|] eqn:Hget; simpl; rewrite ?Hget; [|done].
  unfold DB.with_comments. simpl.
  rewrite update_notify_idempotent; [done |].
  intros c. by destruct c.
Qed.

End UnsubscribeFlow.

Lemma unsubscribe_token_round_trip_witness :
  fst (Talk.unsubscribe_user Sample.mac Sample.SECRET_KEY Sample.db
         1400002000
         (Talk.get_unsubscribe_token Sample.mac Sample.SECRET_KEY
            Sample.talk1 1400001000 (Some "dave@example.com") 604800))
  = (Some Sample.talk1, Some "dave@example.com").
Proof.
  apply (unsubscribe_token_round_trip Sample.mac Sample.SECRET_KEY Sample.db
           Sample.talk1 1%Z "dave@example.com");
    [reflexivity | lia | discriminate | reflexivity | lia | lia | lia].
Defined.

(** [talk.approved_comments()] selects exactly the comments of the talk
    whose [approved] flag is true. *)
Theorem approved_comments_spec (db : DB.t) (t : talks.row)
    (c : comments.row) :
  c ∈ Talk.approved_comments db t
  <-> c ∈ DB.comments db
      /\ (exists i, comments.talk_id c = Some i /\ talks.id t = Some i)
      /\ comments.approved c = Some true.
Proof.
  unfold Talk.approved_comments, Rel.talk_comments.
  rewrite !elem_of_filter_bool, col_eq_true, sql_eq_true. tauto.
Qed.

(** [PendingEmail.remove(email)] deletes exactly the queued mails of that
    address, keeps the others in order and touches no other table; after
    it no talk has a mail queued for the address. *)
Theorem remove_spec (db : DB.t) (e : option string) :
  let db' := PendingEmail.remove db e in
  (forall p, p ∈ DB.pending_emails db'
             <-> p ∈ DB.pending_emails db /\ pending_emails.email p <> e)
  /\ DB.users db' = DB.users db
  /\ DB.talks db' = DB.talks db
  /\ DB.comments db' = DB.comments db
  /\ forall t, PendingEmail.already_in_queue db' e t = false.
Proof.
  simpl. split; [|split; [done | split; [done | split; [done |]]]].
  - intros p. unfold PendingEmail.remove, Query.delete. simpl.
    rewrite elem_of_filter_bool, negb_true_iff.
    rewrite <- not_true_iff_false, col_eq_true. done.
  - intros t. apply already_in_queue_after_remove.
Qed.

(* ===================================================================== *)
(** ** The properties on the sample database *)
(* ===================================================================== *)

(** Alice moderates Bob's and Dave's unapproved comments on her talk; as
    an administrator she sees every unapproved comment. *)
Lemma for_moderation_spec_witness :
  Sample.comment1 ∈ User.for_moderation Sample.db Sample.alice false
  /\ ~ (Sample.comment5 ∈ User.for_moderation Sample.db Sample.alice false)
  /\ User.for_moderation Sample.db Sample.alice true
     = [Sample.comment1; Sample.comment4; Sample.comment5].
Proof.
  pose proof (for_moderation_spec Sample.db) as (_ & Hadmin & Hown).
  split; [|split].
  - apply (Hown Sample.alice false Sample.comment1); [by left |].
    split; [apply list_elem_of_In; simpl; tauto |].
    split; [reflexivity |].
    exists Sample.talk1, 1%Z, 1%Z.
    split; [apply list_elem_of_In; simpl; tauto |]. done.
  - intros Hin.
    apply (Hown Sample.alice false Sample.comment5) in Hin; [|by left].
    destruct Hin as (_ & _ & t & i & j & Ht & Hi & Hti & Htj & Hj).
    injection Hi as <-. injection Hj as <-.
    apply list_elem_of_In in Ht. simpl in Ht.
    destruct Ht as [<- | [<- | []]]; discriminate.
  - rewrite (Hadmin Sample.alice eq_refl). reflexivity.
Defined.

Lemma already_in_queue_iff_witness :
  PendingEmail.already_in_queue Sample.db (Some "carol@example.com")
    Sample.talk1 = true
  /\ PendingEmail.already_in_queue Sample.db (Some "carol@example.com")
       Sample.talk2 = false.
Proof.
  split.
  - apply (already_in_queue_iff Sample.db (Some "carol@example.com")
             Sample.talk1).
    exists Sample.mail1.
    split; [apply list_elem_of_In; simpl; tauto | done].
  - apply (already_in_queue_iff Sample.db (Some "carol@example.com")
             Sample.talk2).
    intros p Hp Ht _. apply list_elem_of_In in Hp. simpl in Hp.
    destruct Hp as [<- | []]. discriminate.
Defined.

(* ===================================================================== *)
(** ** Tokens of one kind are of no use as the other *)
(* ===================================================================== *)

Section TokenKinds.
Variable mac : string -> itsdangerous.header -> itsdangerous.payload -> string.
Variable SECRET_KEY : string.

(** Whatever a serializer reads back from a dumped token is the object
    that was dumped. *)
Lemma loads_dumps_inv (s s' : itsdangerous.Serializer) (issued now : Z)
    (obj p : itsdangerous.payload) :
  itsdangerous.loads mac s' now (itsdangerous.dumps mac s issued obj)
  = Py.Ok p ->
  p = obj /\ (now <= issued + itsdangerous.expires_in s)%Z.
Proof.
  intros Hl. apply loads_Ok_iff in Hl as (_ & Hp & e & He & _ & Hle).
  simpl in Hp, He. injection Hp as <-. injection He as <-. done.
Qed.

(** Both kinds of token are signed with the one [SECRET_KEY], and still
    neither passes for the other: an unsubscribe token never validates as
    an API token, and an API token never unsubscribes anyone nor changes
    the database. *)
Theorem token_kinds_do_not_mix (db : DB.t) (now : Z) :
  (forall talk issued addr e,
      User.validate_api_token mac SECRET_KEY db now
        (Talk.get_unsubscribe_token mac SECRET_KEY talk issued addr e)
      = None)
  /\ (forall u issued e,
        Talk.unsubscribe_user mac SECRET_KEY db now
          (User.get_api_token mac SECRET_KEY u issued e)
        = ((None, None), db)).
Proof.
  split.
  - intros talk issued addr e.
    unfold User.validate_api_token, Talk.get_unsubscribe_token.
    destruct (itsdangerous.loads mac _ now _) as [p|err] eqn:Hl; [|done].
    apply loads_dumps_inv in Hl as [-> _]. done.
  - intros u issued e.
    unfold Talk.unsubscribe_user, User.get_api_token.
    destruct (itsdangerous.loads mac _ now _) as [p|err] eqn:Hl; [|done].
    apply loads_dumps_inv in Hl as [-> _]. done.
Qed.

(** An API token authenticates nobody but its holder, and only until it
    expires: when [validate_api_token] returns a user for the token issued
    to [u], that user is stored, has the id of [u], and the expiry date
    has not passed. *)
Theorem api_token_identifies_holder (db : DB.t) (now : Z) (u v : users.row)
    (issued e : Z) :
  User.validate_api_token mac SECRET_KEY db now
    (User.get_api_token mac SECRET_KEY u issued e) = Some v ->
  v ∈ DB.users db
  /\ users.id v = users.id u
  /\ (exists i, users.id u = Some i /\ i <> 0%Z)
  /\ (now <= issued + e)%Z.
Proof.
  intros Hv. apply validate_api_token_Some in Hv as (p & i & Hl & Hi & Hne & Hg).
  unfold User.get_api_token in Hl.
  apply loads_dumps_inv in Hl as [-> Hle]. simpl in Hi, Hle.
  apply get_Some in Hg as [Hin (j & [= <-] & Hj)].
  split; [done |]. split; [congruence |]. split; [eauto | done].
Qed.

End TokenKinds.

Lemma api_token_identifies_holder_witness :
  Sample.alice ∈ DB.users Sample.db
  /\ users.id Sample.alice = users.id Sample.alice
  /\ (exists i, users.id Sample.alice = Some i /\ i <> 0%Z)
  /\ (1400001200 <= 1400001000 + 300)%Z.
Proof.
  apply (api_token_identifies_holder Sample.mac Sample.SECRET_KEY Sample.db
           1400001200 Sample.alice Sample.alice 1400001000 300).
  vm_compute. reflexivity.
Defined.

(* ===================================================================== *)
(** ** Gravatar URLs *)
(* ===================================================================== *)

(** A text is a prefix of itself followed by anything. *)
Lemma prefix_app (a b : string) : String.prefix a (a ++ b) = true.
Proof.
  induction a as [|ch a IH]; simpl.
  - by destruct b.
  - destruct (Ascii.ascii_dec ch ch); [exact IH | done].
Qed.

(** The hash stored at construction is a cache: [gravatar] answers the
    same on the constructed user as on the keyword arguments themselves,
    whether it returns a URL or raises. *)
Theorem gravatar_init_same (kwargs : users.row) (is_secure : bool) (size : Z)
    (default rating : string) :
  User.gravatar is_secure (User.__init__ kwargs) size default rating
  = User.gravatar is_secure kwargs size default rating.
Proof.
  unfold User.__init__.
  destruct (users.email kwargs) as [e|] eqn:He; [|done].
  destruct (users.avatar_hash kwargs) as [h|] eqn:Hh; [done |].
  unfold User.gravatar, User.email_md5. rewrite Hh.
  destruct kwargs; simpl in *. subst. simpl.
  by destruct (String.eqb (hashlib.md5_hexdigest (Py.encode_utf8 e)) "").
Qed.

(** [gravatar] raises exactly when there is neither a non-empty
    [avatar_hash] nor an email to hash; in every other case it returns a
    URL under the secure host for a secure request and under the plain
    host otherwise. *)
Theorem gravatar_raises_iff (is_secure : bool) (u : users.row) (size : Z)
    (default rating : string) :
  ((exists err, User.gravatar is_secure u size default rating = Py.Raise err)
   <-> Py.truthy_str (users.avatar_hash u) = false /\ users.email u = None)
  /\ (forall url,
        User.gravatar is_secure u size default rating = Py.Ok url ->
        String.prefix
          (if is_secure then "https://secure.gravatar.com/avatar/"
           else "http://www.gravatar.com/avatar/") url = true).
Proof.
  unfold User.gravatar, User.email_md5. split.
  - destruct (Py.truthy_str (users.avatar_hash u)) eqn:Ht; simpl.
    + split; [intros [err [=]] | intros [[=] _]].
    + destruct (users.email u) as [e|]; simpl.
      * split; [intros [err [=]] | intros [_ [=]]].
      * split; [done | eauto].
  - intros url.
    destruct (Py.truthy_str (users.avatar_hash u)); simpl.
    + intros [= <-]. destruct is_secure;
        lazymatch goal with
        | |- String.prefix ?a (_ ++ "/" ++ ?rest)%string = true =>
            exact (prefix_app a rest)
        end.
    + destruct (users.email u) as [e|]; simpl; [|discriminate].
      intros [= <-]. destruct is_secure;
        lazymatch goal with
        | |- String.prefix ?a (_ ++ "/" ++ ?rest)%string = true =>
            exact (prefix_app a rest)
        end.
Qed.

(* ===================================================================== *)
(** ** The derived avatar hash fits its column *)
(* ===================================================================== *)

Lemma length_string_of_list_ascii (l : list ascii) :
  String.length (string_of_list_ascii l) = length l.
Proof. induction l as [|a l IH]; simpl; [done | by rewrite IH]. Qed.

Lemma length_bytes_le (n : nat) (x : Z) : length (hashlib.bytes_le n x) = n.
Proof.
  revert x. induction n as [|n IH]; intros x; simpl; [done | by rewrite IH].
Qed.

Lemma length_md5_digest (msg : list Z) : length (hashlib.md5_digest msg) = 16.
Proof.
  unfold hashlib.md5_digest.
  destruct (fold_left _ _ hashlib.init_state) as [[[a b] c] d].
  by rewrite !length_app, !length_bytes_le.
Qed.

Lemma length_hex_of_bytes (bs : list Z) :
  String.length (hashlib.hex_of_bytes bs) = 2 * length bs.
Proof.
  unfold hashlib.hex_of_bytes. rewrite length_string_of_list_ascii.
  induction bs as [|b bs IH]; simpl; [done | rewrite IH; lia].
Qed.

(** Whatever the email, the hash the constructor derives has exactly 32
    characters, the width [avatar_hash] is declared with. *)
Theorem avatar_hash_length (kwargs : users.row) (e : string) :
  users.email kwargs = Some e -> users.avatar_hash kwargs = None ->
  exists h, users.avatar_hash (User.__init__ kwargs) = Some h
            /\ String.length h = 32.
Proof.
  intros He Hh. unfold User.__init__. rewrite He, Hh.
  eexists. split; [reflexivity |].
  unfold hashlib.md5_hexdigest.
  by rewrite length_hex_of_bytes, length_md5_digest.
Qed.

Lemma avatar_hash_length_witness :
  exists h, users.avatar_hash (User.__init__ Sample.john_kwargs) = Some h
            /\ String.length h = 32.
Proof.
  exact (avatar_hash_length Sample.john_kwargs "john@example.com"
           eq_refl eq_refl).
Defined.

(* ===================================================================== *)
(** ** Approved, unapproved, undecided *)
(* ===================================================================== *)

(** No comment is at once among a talk's approved comments and in a
    moderation queue; and a comment whose [approved] flag is [NULL] is in
    neither: it is not shown as approved and nobody is asked to moderate
    it. *)
Theorem approved_or_moderated (db : DB.t) (t : talks.row) (u : users.row)
    (admin : bool) (c : comments.row) :
  ~ (c ∈ Talk.approved_comments db t
     /\ (c ∈ Comment.for_moderation db
         \/ c ∈ User.for_moderation db u admin))
  /\ (comments.approved c = None ->
      ~ c ∈ Talk.approved_comments db t
      /\ ~ c ∈ Comment.for_moderation db
      /\ ~ c ∈ User.for_moderation db u admin).
Proof.
  assert (c ∈ Talk.approved_comments db t -> comments.approved c = Some true)
    as Happroved.
  { unfold Talk.approved_comments. intros Hc.
    apply elem_of_filter_bool in Hc as [_ Hc]. by apply col_eq_true in Hc. }
  assert (c ∈ Comment.for_moderation db -> comments.approved c = Some false)
    as Hqueue.
  { unfold Comment.for_moderation. intros Hc.
    apply elem_of_filter_bool in Hc as [_ Hc]. by apply col_eq_true in Hc. }
  assert (c ∈ User.for_moderation db u admin ->
          comments.approved c = Some false) as Hown.
  { destruct (admin && Py.truthy_bool (users.is_admin u)) eqn:Hmode.
    - unfold User.for_moderation. rewrite Hmode. exact Hqueue.
    - intros Hc. by apply (for_moderation_join db u admin c Hmode) in Hc
        as (_ & Hc & _). }
  split.
  - intros [Ha [Hm | Hm]].
    + apply Happroved in Ha. apply Hqueue in Hm. congruence.
    + apply Happroved in Ha. apply Hown in Hm. congruence.
  - intros Hnull. split; [|split]; intros Hc.
    + apply Happroved in Hc. congruence.
    + apply Hqueue in Hc. congruence.
    + apply Hown in Hc. congruence.
Qed.

Lemma approved_or_moderated_witness :
  ~ Sample.comment7 ∈ Talk.approved_comments Sample.db_undecided Sample.talk1
  /\ ~ Sample.comment7 ∈ Comment.for_moderation Sample.db_undecided
  /\ ~ Sample.comment7
        ∈ User.for_moderation Sample.db_undecided Sample.alice true.
Proof.
  exact (proj2 (approved_or_moderated Sample.db_undecided Sample.talk1
                  Sample.alice true Sample.comment7) eq_refl).
Defined.

(* ===================================================================== *)
(** ** Removing mails of one address *)
(* ===================================================================== *)

(** [PendingEmail.remove(email)] leaves the queue of every other address
    as it was: [already_in_queue] answers the same before and after for
    any other address and any talk; and removing twice is removing once. *)
Theorem remove_other_addresses (db : DB.t) (e e' : option string)
    (t : talks.row) :
  (e' <> e ->
   PendingEmail.already_in_queue (PendingEmail.remove db e) e' t
   = PendingEmail.already_in_queue db e' t)
  /\ PendingEmail.remove (PendingEmail.remove db e) e
     = PendingEmail.remove db e.
Proof.
  split.
  - intros Hne.
    assert (forall b1 b2 : bool, (b1 = true <-> b2 = true) -> b1 = b2)
      as Hbool by (intros [|] [|] [H1 H2]; auto; symmetry; auto).
    apply Hbool. rewrite !already_in_queue_true. split.
    + intros (p & Hp & Ht & He). exists p. split; [|done].
      unfold PendingEmail.remove, Query.delete in Hp. simpl in Hp.
      by apply elem_of_filter_bool in Hp as [Hp _].
    + intros (p & Hp & Ht & He). exists p. split; [|done].
      unfold PendingEmail.remove, Query.delete. simpl.
      apply elem_of_filter_bool. split; [done |].
      apply negb_true_iff, not_true_iff_false.
      rewrite col_eq_true. congruence.
  - unfold PendingEmail.remove, Query.delete, DB.with_pending_emails. simpl.
    f_equal. induction (DB.pending_emails db) as [|p ps IH]; simpl; [done |].
    destruct (negb (Query.col_eq (pending_emails.email p) e)) eqn:Hp; simpl.
    + by rewrite Hp, IH.
    + exact IH.
Qed.

Lemma remove_other_addresses_witness :
  PendingEmail.already_in_queue
    (PendingEmail.remove Sample.db (Some "dave@example.com"))
    (Some "carol@example.com") Sample.talk1
  = PendingEmail.already_in_queue Sample.db (Some "carol@example.com")
      Sample.talk1.
Proof.
  apply (proj1 (remove_other_addresses Sample.db (Some "dave@example.com")
                  (Some "carol@example.com") Sample.talk1)).
  discriminate.
Defined.

(* ===================================================================== *)
(** ** Loading a user by its key *)
(* ===================================================================== *)

(** In a table whose keys are pairwise distinct, [Query.get] finds each
    row under its own key. *)
Lemma get_unique {A} (pk : A -> option Z) (rows : list A) (i : Z) (u : A) :
  NoDup (pk <$> rows) -> u ∈ rows -> pk u = Some i ->
  Query.get pk rows (Some i) = Some u.
Proof.
  unfold Query.get. induction rows as [|r rs IH]; intros Hnd Hu Hpk.
  - inversion Hu.
  - rewrite fmap_cons in Hnd. apply NoDup_cons in Hnd as [Hfresh Hnd].
    simpl. destruct (Query.sql_eq (pk r) (Some i)) eqn:Hr.
    + apply sql_eq_true in Hr as (x & Hx & [= <-]).
      apply elem_of_cons in Hu as [-> | Hu]; [done |].
      exfalso. apply Hfresh. rewrite Hx, <- Hpk.
      by apply list_elem_of_fmap_2.
    + apply elem_of_cons in Hu as [-> | Hu].
      * rewrite Hpk in Hr. unfold Query.sql_eq in Hr.
        by rewrite bool_decide_eq_true_2 in Hr.
      * by apply IH.
Qed.

(** A column that is required and passed the uniqueness check holds no
    value twice. *)
Lemma no_clash_NoDup (vs : list (option Column.value)) :
  Engine.no_clash vs = true -> (forall v, v ∈ vs -> is_Some v) -> NoDup vs.
Proof.
  induction vs as [|v vs IH]; intros Hok Hsome; [constructor |].
  simpl in Hok. apply andb_true_iff in Hok as [Hhead Htail].
  constructor.
  - destruct (Hsome v) as [x ->]; [by left |].
    apply negb_true_iff in Hhead. intros Hin.
    assert (existsb (fun w => bool_decide (w = Some x)) vs = true) as Hex.
    { apply existsb_exists. exists (Some x).
      split; [by apply list_elem_of_In | by apply bool_decide_eq_true_2]. }
    congruence.
  - apply IH; [done |]. intros w Hw. apply Hsome. by right.
Qed.

(** In every state of the database, the ids of the users are present and
    pairwise distinct: [id] is the primary key. *)
Lemma reachable_users_pk (db : DB.t) :
  Engine.reachable db ->
  NoDup (users.id <$> DB.users db)
  /\ forall u, u ∈ DB.users db -> is_Some (users.id u).
Proof.
  intros Hreach. apply reachable_constraints in Hreach.
  unfold Engine.constraints_ok, Engine.not_null_ok, Engine.unique_ok in Hreach.
  apply andb_true_iff in Hreach as [Hnull Huniq].
  simpl in Hnull, Huniq.
  apply andb_true_iff in Hnull as [Hid _].
  apply andb_true_iff in Huniq as [Huid _].
  rewrite forallb_forall in Hid.
  assert (forall u, u ∈ DB.users db -> is_Some (users.id u)) as Hsome.
  { intros u Hu. apply list_elem_of_In in Hu. specialize (Hid u Hu).
    change (users.cell u "id") with (Column.VInt <$> users.id u) in Hid.
    destruct (users.id u); [eauto | discriminate]. }
  split; [|exact Hsome].
  apply (NoDup_fmap_1 (fmap Column.VInt)).
  rewrite <- list_fmap_compose.
  apply no_clash_NoDup; [exact Huid |].
  intros v Hv. apply list_elem_of_fmap in Hv as (u & -> & Hu).
  unfold compose. destruct (Hsome u Hu) as [i ->]. simpl. eauto.
Qed.

(** [load_user] returns a stored user that carries the key asked for, and
    [None] exactly when no user carries it; and in every state of the
    database each stored user is the one [load_user] returns for its
    id. *)
Theorem load_user_spec (db : DB.t) :
  (forall i u, load_user db i = Some u ->
               u ∈ DB.users db /\ users.id u = Some i)
  /\ (forall i, load_user db i = None
                <-> forall u, u ∈ DB.users db -> users.id u <> Some i)
  /\ (Engine.reachable db ->
      forall u, u ∈ DB.users db ->
                exists i, users.id u = Some i /\ load_user db i = Some u).
Proof.
  unfold load_user. split; [|split].
  - intros i u Hg. apply get_Some in Hg as [Hin (j & [= <-] & Hj)]. done.
  - intros i. apply get_None.
  - intros Hreach u Hu.
    destruct (reachable_users_pk db Hreach) as [Hnd Hsome].
    destruct (Hsome u Hu) as [i Hi]. exists i. split; [done |].
    by apply get_unique.
Qed.

Lemma load_user_spec_witness :
  exists i, users.id Sample.bob = Some i /\ load_user Sample.db i = Some Sample.bob.
Proof.
  apply (proj2 (proj2 (load_user_spec Sample.db)) sample_db_reachable).
  apply list_elem_of_In. simpl. tauto.
Defined.

Section StoredUsers.
Variable mac : string -> itsdangerous.header -> itsdangerous.payload -> string.
Variable SECRET_KEY : string.

(** In every state of the database, each stored user whose id is not 0
    gets itself back for the API token issued to it, up to the expiry
    date. *)
Theorem stored_user_token_round_trip (db : DB.t) (u : users.row)
    (issued e now : Z) :
  Engine.reachable db -> u ∈ DB.users db -> users.id u <> Some 0%Z ->
  (0 <= issued)%Z -> (0 < e)%Z -> (now <= issued + e)%Z ->
  User.validate_api_token mac SECRET_KEY db now
    (User.get_api_token mac SECRET_KEY u issued e) = Some u.
Proof.
  intros Hreach Hu Hnz Hissued He Hnow.
  destruct (reachable_users_pk db Hreach) as [Hnd Hsome].
  destruct (Hsome u Hu) as [i Hi].
  apply validate_api_token_Some.
  exists (itsdangerous.Payload (users.id u) None None), i.
  split; [|split; [done | split; [congruence | by apply get_unique]]].
  unfold User.get_api_token. apply loads_dumps; simpl; [done | lia | lia].
Qed.

End StoredUsers.

Lemma stored_user_token_round_trip_witness :
  User.validate_api_token Sample.mac Sample.SECRET_KEY Sample.db 1400001100
    (User.get_api_token Sample.mac Sample.SECRET_KEY Sample.bob
       1400001000 300)
  = Some Sample.bob.
Proof.
  apply (stored_user_token_round_trip Sample.mac Sample.SECRET_KEY Sample.db
           Sample.bob 1400001000 300 1400001100 sample_db_reachable);
    [apply list_elem_of_In; simpl; tauto | discriminate | lia | lia | lia].
Defined.

(* ===================================================================== *)
(** ** A moderation queue lists each comment once *)
(* ===================================================================== *)

Lemma sql_eq_sym {A} `{EqDecision A} (a b : option A) :
  Query.sql_eq a b = Query.sql_eq b a.
Proof.
  destruct a as [x|], b as [y|]; simpl; try done.
  destruct (decide (x = y)) as [-> | Hne].
  - by rewrite !bool_decide_eq_true_2.
  - rewrite !bool_decide_eq_false_2; [done | congruence | done].
Qed.

(** With pairwise distinct talk ids, the join pairs a comment with its
    talk and with no other. *)
Lemma join_one_talk (c : comments.row) (ts : list talks.row) :
  NoDup (talks.id <$> ts) ->
  flat_map (fun t => if Query.sql_eq (comments.talk_id c) (talks.id t)
                     then [(c, t)] else []) ts
  = match Query.get talks.id ts (comments.talk_id c) with
    | Some t => [(c, t)]
    | None => []
    end.
Proof.
  unfold Query.get. destruct (comments.talk_id c) as [i|].
  - induction ts as [|t ts IH]; intros Hnd; [done |].
    rewrite fmap_cons in Hnd. apply NoDup_cons in Hnd as [Hfresh Hnd].
    cbn [flat_map find]. rewrite (sql_eq_sym (talks.id t)).
    destruct (Query.sql_eq (Some i) (talks.id t)) eqn:Ht;
      [|by apply IH].
    cbn [app]. f_equal.
    apply sql_eq_true in Ht as (x & Hi & Hx). injection Hi as <-.
    clear IH. induction ts as [|t' ts IH]; [done |].
    cbn [flat_map].
    destruct (Query.sql_eq (Some i) (talks.id t')) eqn:Ht'.
    + exfalso. apply Hfresh.
      apply sql_eq_true in Ht' as (y & Hi & Hy). injection Hi as <-.
      rewrite Hx, <- Hy. rewrite fmap_cons. left.
    + cbn [app]. apply IH.
      * intros Hin. apply Hfresh. rewrite fmap_cons. by right.
      * rewrite fmap_cons in Hnd. by apply NoDup_cons in Hnd as [_ Hnd].
  - intros _. induction ts as [|t ts IH]; [done | exact IH].
Qed.

(** When talk ids are pairwise distinct, as a primary key makes them, the
    queue of a user who is not acting as administrator is the comment
    table, in its order and without repetition, restricted to the
    unapproved comments whose talk is authored by the user. *)
Theorem for_moderation_once (db : DB.t) (u : users.row) (admin : bool) :
  NoDup (talks.id <$> DB.talks db) ->
  admin && Py.truthy_bool (users.is_admin u) = false ->
  User.for_moderation db u admin
  = List.filter
      (fun c =>
         match Rel.comment_talk db c with
         | Some t =>
             Query.sql_eq (talks.user_id t) (users.id u)
             && Query.col_eq (comments.approved c) (Some false)
         | None => false
         end)
      (DB.comments db).
Proof.
  intros Hnd Hmode. unfold User.for_moderation, Rel.comment_talk.
  rewrite Hmode.
  induction (DB.comments db) as [|c cs IH]; [done |].
  cbn [flat_map List.filter]. rewrite (join_one_talk c (DB.talks db) Hnd).
  rewrite !List.filter_app, map_app, IH.
  destruct (Query.get talks.id (DB.talks db) (comments.talk_id c)) as [t|];
    cbn [List.filter map app fst snd]; [|done].
  destruct (Query.sql_eq (talks.user_id t) (users.id u));
    cbn [List.filter map app fst snd andb]; [|done].
  by destruct (Query.col_eq (comments.approved c) (Some false)).
Qed.

Lemma for_moderation_once_witness :
  User.for_moderation Sample.db Sample.alice false
  = [Sample.comment1; Sample.comment4].
Proof.
  rewrite (for_moderation_once Sample.db Sample.alice false);
    [reflexivity | | reflexivity].
  apply (bool_decide_unpack _). vm_compute. exact I.
Defined.

(* ===================================================================== *)
(** ** More on notification lists *)
(* ===================================================================== *)

(** The loop over a list in two parts is the loop over the first part
    followed by the loop over the second. *)
Lemma notification_loop_app (db : DB.t) (self : comments.row)
    (l1 l2 : list comments.row)
    (result : gmap (option string) (option string)) :
  Comment.notification_loop db self result (l1 ++ l2)
  = Py.bind (Comment.notification_loop db self result l1)
            (fun r => Comment.notification_loop db self r l2).
Proof.
  revert result. induction l1 as [|m l1 IH]; intros result; [done |].
  simpl. destruct (Comment.notification_step db self result m); [|done].
  simpl. apply IH.
Qed.

(** A comment never contributes to its own notification list. *)
Lemma contributes_not_self (db : DB.t) (self : comments.row)
    (talk : talks.row) (k v : option string) :
  ~ contributes db self talk self k v.
Proof.
  intros (_ & _ & [(a & Ha & Hne & _) | (_ & Hne & _)]); done.
Qed.

(** When several comments contribute under one address, the entry of
    the list carries the name given by the last of them: a later comment
    replaces what an earlier one wrote under the same address. *)
Theorem notification_last_wins (db : DB.t) (self : comments.row)
    (talk : talks.row) (l1 l2 : list comments.row) (m : comments.row)
    (k v : option string) :
  Rel.comment_talk db self = Some talk ->
  Rel.talk_comments db talk = l1 ++ m :: l2 ->
  contributes db self talk m k v ->
  (forall m' v', m' ∈ l2 -> ~ contributes db self talk m' k v') ->
  exists items,
    Comment.notification_list db self = Py.Ok items
    /\ (k, v) ∈ items
    /\ forall v', (k, v') ∈ items -> v' = v.
Proof.
  intros Htalk Hsplit Hm Hlater.
  assert (forall m', m' ∈ l1 ++ m :: l2 -> Rel.comment_talk db m' = Some talk)
    as Hall.
  { intros m' Hm'. rewrite <- Hsplit in Hm'.
    by apply (talk_comments_talk db self talk m' Htalk). }
  unfold Comment.notification_list. rewrite Htalk, Hsplit.
  rewrite notification_loop_app.
  destruct (notification_loop_spec db self talk l1) with (result := (∅ : gmap (option string) (option string)))
    as (r1 & -> & _); [intros m' Hm'; apply Hall, elem_of_app; by left |].
  simpl.
  destruct (notification_step_spec db self talk r1 m)
    as [(k0 & v0 & Hc & ->) | (Hnc & _)];
    [apply Hall, elem_of_app; right; by left | | by destruct (Hnc k v)].
  destruct (contributes_functional _ _ _ _ _ _ _ _ Hm Hc) as [<- <-].
  simpl.
  destruct (notification_loop_spec db self talk l2) with (result := <[k := v]> r1)
    as (r2 & -> & Hfrom & Hmono & _);
    [intros m' Hm'; apply Hall, elem_of_app; right; by right |].
  simpl. exists (map_to_list r2). split; [done |].
  assert (forall v', r2 !! k = Some v' -> v' = v) as Honly.
  { intros v' Hv'. destruct (Hfrom k v' Hv') as [Hin | (m' & Hm' & Hc')].
    - rewrite lookup_insert_eq in Hin. congruence.
    - by destruct (Hlater m' v' Hm'). }
  split.
  - destruct (Hmono k) as [v' Hv']; [rewrite lookup_insert_eq; eauto |].
    apply elem_of_map_to_list. by rewrite (Honly v' Hv') in Hv'.
  - intros v' Hv'. apply elem_of_map_to_list in Hv'. by apply Honly.
Qed.

(** On the sample database with the extra anonymous comment, Bob's
    address is contributed twice to the list of Alice's comment, first
    with his user name, then with the name the anonymous comment gives. *)
Lemma notification_last_wins_witness :
  exists items,
    Comment.notification_list Sample.db_cross Sample.comment3 = Py.Ok items
    /\ (Some "bob@example.com", Some "Bob") ∈ items
    /\ forall v', (Some "bob@example.com", v') ∈ items -> v' = Some "Bob".
Proof.
  apply (notification_last_wins Sample.db_cross Sample.comment3 Sample.talk1
           [Sample.comment1; Sample.comment2; Sample.comment3;
            Sample.comment4]
           [] Sample.comment6).
  - reflexivity.
  - reflexivity.
  - split; [reflexivity |]. split; [discriminate |].
    right. split; [reflexivity |]. split; [discriminate |]. done.
  - intros m' v' Hm'. inversion Hm'.
Defined.

(** Every entry of a notification list comes from a comment other than
    the one at hand; a comment that is alone on its talk gets the empty
    list. *)
Theorem notification_from_others (db : DB.t) (self : comments.row)
    (talk : talks.row) :
  Rel.comment_talk db self = Some talk ->
  exists items,
    Comment.notification_list db self = Py.Ok items
    /\ (forall k v, (k, v) ∈ items ->
                    exists m, m ∈ Rel.talk_comments db talk /\ m <> self
                              /\ contributes db self talk m k v)
    /\ ((forall m, m ∈ Rel.talk_comments db talk -> m = self) -> items = []).
Proof.
  intros Htalk. unfold Comment.notification_list. rewrite Htalk.
  destruct (notification_loop_spec db self talk (Rel.talk_comments db talk)
              (fun m Hm => talk_comments_talk db self talk m Htalk Hm) ∅)
    as (result & -> & Hfrom & _ & _).
  simpl. exists (map_to_list result). split; [done |].
  assert (forall k v, (k, v) ∈ map_to_list result ->
                      exists m, m ∈ Rel.talk_comments db talk /\ m <> self
                                /\ contributes db self talk m k v) as Hothers.
  { intros k v Hkv. apply elem_of_map_to_list in Hkv.
    destruct (Hfrom k v Hkv) as [Hempty | (m & Hm & Hc)].
    - by rewrite lookup_empty in Hempty.
    - exists m. split; [done |]. split; [|done].
      intros ->. by apply contributes_not_self in Hc. }
  split; [exact Hothers |].
  intros Halone. destruct (map_to_list result) as [|[k v] items] eqn:Hl; [done |].
  destruct (Hothers k v) as (m & Hm & Hne & _); [left |].
  by destruct (Hne (Halone m Hm)).
Qed.

Lemma notification_from_others_witness :
  exists items,
    Comment.notification_list Sample.db Sample.comment5 = Py.Ok items
    /\ items = [].
Proof.
  destruct (notification_from_others Sample.db Sample.comment5 Sample.talk2
              eq_refl) as (items & Hitems & _ & Halone).
  exists items. split; [exact Hitems |].
  apply Halone. intros m Hm.
  apply elem_of_filter_bool in Hm as [Hm Ht].
  apply list_elem_of_In in Hm. simpl in Hm.
  destruct Hm as [<- | [<- | [<- | [<- | [<- | []]]]]];
    solve [discriminate | reflexivity].
Defined.

(* ===================================================================== *)
(** ** Unsubscribing stops the mail *)
(* ===================================================================== *)

Section NoMailAfterUnsubscribe.
Variable mac : string -> itsdangerous.header -> itsdangerous.payload -> string.
Variable SECRET_KEY : string.

(** When [unsubscribe_user] answers with a talk and an address, the
    database it leaves is the one it was given with [notify] cleared on
    the comments of that talk under that address. *)
Lemma unsubscribe_user_success (db : DB.t) (now : Z)
    (token : itsdangerous.token) (talk : talks.row) (addr : string) :
  fst (Talk.unsubscribe_user mac SECRET_KEY db now token)
  = (Some talk, Some addr) ->
  snd (Talk.unsubscribe_user mac SECRET_KEY db now token)
  = DB.with_comments
      (Query.update
         (fun c => Query.sql_eq (comments.talk_id c) (talks.id talk)
                   && Query.col_eq (comments.author_email c) (Some addr))
         (comments.set_notify (Some false)) (DB.comments db))
      db.
Proof.
  unfold Talk.unsubscribe_user.
  destruct (itsdangerous.loads mac _ now token) as [p|err]; simpl;
    [|discriminate].
  destruct (negb (Py.truthy_int (itsdangerous.talk p))
            || negb (Py.truthy_str (itsdangerous.email p)));
    simpl; [discriminate |].
  destruct (Query.get talks.id (DB.talks db) (itsdangerous.talk p))
    as [t|]; simpl; [|discriminate].
  intros [= -> ->]. reflexivity.
Qed.

(** After an address was unsubscribed from a talk, an entry under that
    address in a notification list of the talk can only come from a
    comment of a registered user who has that email; if no user has it,
    no notification list of the talk mentions the address any more. *)
Theorem no_mail_after_unsubscribe (db : DB.t) (now : Z)
    (token : itsdangerous.token) (talk : talks.row) (addr : string)
    (self : comments.row) :
  let db' := snd (Talk.unsubscribe_user mac SECRET_KEY db now token) in
  fst (Talk.unsubscribe_user mac SECRET_KEY db now token)
  = (Some talk, Some addr) ->
  Rel.comment_talk db' self = Some talk ->
  exists items,
    Comment.notification_list db' self = Py.Ok items
    /\ (forall v, (Some addr, v) ∈ items ->
                  exists m a, m ∈ Rel.talk_comments db' talk
                              /\ Rel.comment_author db' m = Some a
                              /\ users.email a = Some addr)
    /\ ((forall u, u ∈ DB.users db -> users.email u <> Some addr) ->
        forall v, ~ (Some addr, v) ∈ items).
Proof.
  intros db' Hret Htalk. subst db'.
  rewrite (unsubscribe_user_success db now token talk addr Hret) in *.
  set (db' := DB.with_comments _ db) in *.
  unfold Comment.notification_list. rewrite Htalk.
  destruct (notification_loop_spec db' self talk (Rel.talk_comments db' talk)
              (fun m Hm => talk_comments_talk db' self talk m Htalk Hm) ∅)
    as (result & -> & Hfrom & _ & _).
  simpl. exists (map_to_list result). split; [done |].
  assert (forall v, (Some addr, v) ∈ map_to_list result ->
                    exists m a, m ∈ Rel.talk_comments db' talk
                                /\ Rel.comment_author db' m = Some a
                                /\ users.email a = Some addr) as Hregistered.
  { intros v Hv. apply elem_of_map_to_list in Hv.
    destruct (Hfrom _ v Hv) as [Hempty | (m & Hm & Hc)];
      [by rewrite lookup_empty in Hempty |].
    destruct Hc as (Hnotify & _ & [(a & Ha & _ & Hk & _)
                                  | (_ & _ & Hk & _)]).
    - exists m, a. done.
    - exfalso. pose proof Hm as Hm'.
      apply elem_of_filter_bool in Hm' as [Hin Hmt].
      unfold db' in Hin. simpl in Hin. unfold Query.update in Hin.
      apply list_elem_of_In, in_map_iff in Hin as (c & Hc & _).
      destruct (Query.sql_eq (comments.talk_id c) (talks.id talk)
                && Query.col_eq (comments.author_email c) (Some addr))
        eqn:Hsel; subst m.
      + simpl in Hnotify. discriminate.
      + rewrite Hmt in Hsel. rewrite <- Hk in Hsel.
        unfold Query.col_eq in Hsel.
        by rewrite bool_decide_eq_true_2 in Hsel. }
  split; [exact Hregistered |].
  intros Hnobody v Hv.
  destruct (Hregistered v Hv) as (m & a & _ & Ha & Hemail).
  apply get_Some in Ha as [Hin _]. by apply (Hnobody a).
Qed.

End NoMailAfterUnsubscribe.

(** Carol, who commented anonymously on Alice's talk, follows her
    unsubscribe link; the list for Alice's next comment no longer holds
    her address. *)
Lemma no_mail_after_unsubscribe_witness :
  exists items,
    Comment.notification_list
      (snd (Talk.unsubscribe_user Sample.mac Sample.SECRET_KEY Sample.db
              1400002000
              (Talk.get_unsubscribe_token Sample.mac Sample.SECRET_KEY
                 Sample.talk1 1400001000 (Some "carol@example.com") 604800)))
      Sample.comment3 = Py.Ok items
    /\ forall v, ~ (Some "carol@example.com", v) ∈ items.
Proof.
  destruct (no_mail_after_unsubscribe Sample.mac Sample.SECRET_KEY Sample.db
              1400002000
              (Talk.get_unsubscribe_token Sample.mac Sample.SECRET_KEY
                 Sample.talk1 1400001000 (Some "carol@example.com") 604800)
              Sample.talk1 "carol@example.com" Sample.comment3
              ltac:(vm_compute; reflexivity) ltac:(vm_compute; reflexivity))
    as (items & Hitems & _ & Hnone).
  exists items. split; [exact Hitems |].
  apply Hnone. intros u Hu. apply list_elem_of_In in Hu. simpl in Hu.
  destruct Hu as [<- | [<- | []]]; discriminate.
Defined.
